(** * DungeonManager: the LFG dungeon queue, its pool, workers and producer

    A shallow embedding of [dungeonManager.cpp] and
    [dungeonManagerProducer.cpp].  The two files share the class
    [DungeonManager]; the producer variant adds [total_players_added],
    [addPlayersToQueue] and [playerProducer].  The embedding follows the
    producer variant, which contains the other one method for method. *)

From Stdlib Require Import ZArith Lia Bool List Ascii.
From Stdlib Require String.
From stdpp Require Import base list.
Import ListNotations.
Import String.StringSyntax.

#[local] Open Scope Z_scope.

(** ** The C++ [int]

    [int] is taken as the 32-bit two's-complement integer.  Arithmetic on it
    is written with its wrap-around: that is what [std::atomic<int>]
    guarantees for [++] and [+=], and what the compiled code does for the
    plain [int] members (where the language itself leaves overflow
    undefined). *)
Module Int.

Definition INT_MAX : Z := 2147483647.
Definition INT_MIN : Z := -2147483648.
Definition modulus : Z := 4294967296.

Definition wrap (z : Z) : Z := (z + 2147483648) mod modulus - 2147483648.

Definition is_int (z : Z) : bool := (INT_MIN <=? z) && (z <=? INT_MAX).

Definition in_int (z : Z) : Prop := INT_MIN <= z <= INT_MAX.

End Int.
Import Int.

(** ** The object state

    The data members of [class DungeonManager].  [mtx], [cv], [rd] and [gen]
    carry no value the claims read; their use shows up as events
    (below). *)
Record DungeonManager : Type := mkDungeonManager {
  tank_queue : Z;
  healer_queue : Z;
  dps_queue : Z;
  dungeon_count : Z;
  dungeon_active : list bool;
  parties_served : list Z;
  total_time_served : list Z;
  total_parties_formed : Z;
  total_players_added : Z;
  shutdown : bool
}.

Definition set_tank_queue (v : Z) (s : DungeonManager) : DungeonManager :=
  mkDungeonManager v (healer_queue s) (dps_queue s) (dungeon_count s)
    (dungeon_active s) (parties_served s) (total_time_served s)
    (total_parties_formed s) (total_players_added s) (shutdown s).

Definition set_healer_queue (v : Z) (s : DungeonManager) : DungeonManager :=
  mkDungeonManager (tank_queue s) v (dps_queue s) (dungeon_count s)
    (dungeon_active s) (parties_served s) (total_time_served s)
    (total_parties_formed s) (total_players_added s) (shutdown s).

Definition set_dps_queue (v : Z) (s : DungeonManager) : DungeonManager :=
  mkDungeonManager (tank_queue s) (healer_queue s) v (dungeon_count s)
    (dungeon_active s) (parties_served s) (total_time_served s)
    (total_parties_formed s) (total_players_added s) (shutdown s).

Definition set_dungeon_active (v : list bool) (s : DungeonManager)
  : DungeonManager :=
  mkDungeonManager (tank_queue s) (healer_queue s) (dps_queue s)
    (dungeon_count s) v (parties_served s) (total_time_served s)
    (total_parties_formed s) (total_players_added s) (shutdown s).

Definition set_parties_served (v : list Z) (s : DungeonManager)
  : DungeonManager :=
  mkDungeonManager (tank_queue s) (healer_queue s) (dps_queue s)
    (dungeon_count s) (dungeon_active s) v (total_time_served s)
    (total_parties_formed s) (total_players_added s) (shutdown s).

Definition set_total_time_served (v : list Z) (s : DungeonManager)
  : DungeonManager :=
  mkDungeonManager (tank_queue s) (healer_queue s) (dps_queue s)
    (dungeon_count s) (dungeon_active s) (parties_served s) v
    (total_parties_formed s) (total_players_added s) (shutdown s).

Definition set_total_parties_formed (v : Z) (s : DungeonManager)
  : DungeonManager :=
  mkDungeonManager (tank_queue s) (healer_queue s) (dps_queue s)
    (dungeon_count s) (dungeon_active s) (parties_served s)
    (total_time_served s) v (total_players_added s) (shutdown s).

Definition set_total_players_added (v : Z) (s : DungeonManager)
  : DungeonManager :=
  mkDungeonManager (tank_queue s) (healer_queue s) (dps_queue s)
    (dungeon_count s) (dungeon_active s) (parties_served s)
    (total_time_served s) (total_parties_formed s) v (shutdown s).

Definition set_shutdown (v : bool) (s : DungeonManager) : DungeonManager :=
  mkDungeonManager (tank_queue s) (healer_queue s) (dps_queue s)
    (dungeon_count s) (dungeon_active s) (parties_served s)
    (total_time_served s) (total_parties_formed s) (total_players_added s) v.

(** The constructor [DungeonManager(n, t, h, d)]: the three vectors are
    resized to [n] entries, the atomics start at 0, [shutdown] at false. *)
Definition DungeonManager_new (n t h d : Z) : DungeonManager :=
  mkDungeonManager t h d n
    (replicate (Z.to_nat n) false)
    (replicate (Z.to_nat n) 0)
    (replicate (Z.to_nat n) 0)
    0 0 false.

(** Every [int] member holds an [int]. *)
Definition wf (s : DungeonManager) : bool :=
  is_int (tank_queue s) && is_int (healer_queue s) && is_int (dps_queue s) &&
  is_int (total_parties_formed s) && is_int (total_players_added s) &&
  forallb is_int (parties_served s) && forallb is_int (total_time_served s).

(** ** Effects

    What a method does besides changing the members: taking and releasing
    [mtx], [cv.notify_all()], a line on [std::cout], a draw from the shared
    [gen], a [sleep_for]. *)
Inductive message : Type :=
| MsgAdded (tanks healers dps : Z)
| MsgPartyFormed (instance : Z)
| MsgCompleted (instance : Z) (seconds : Z)
| MsgProducerStop.

Inductive event : Type :=
| EvLock
| EvUnlock
| EvNotifyAll
| EvPrint (m : message)
| EvGen
| EvSleep (duration : Z).

(** A method is a state transformer that also writes its events. *)
Definition Eff (A : Type) : Type :=
  DungeonManager -> A * DungeonManager * list event.

Definition ret {A : Type} (a : A) : Eff A := fun s => (a, s, []).

Definition bind {A B : Type} (m : Eff A) (k : A -> Eff B) : Eff B :=
  fun s =>
    let '(a, s1, l1) := m s in
    let '(b, s2, l2) := k a s1 in
    (b, s2, l1 ++ l2).

Definition get : Eff DungeonManager := fun s => (s, s, []).

Definition modify (f : DungeonManager -> DungeonManager) : Eff unit :=
  fun s => (tt, f s, []).

Definition emit (e : event) : Eff unit := fun s => (tt, s, [e]).

Definition value {A : Type} (m : Eff A) (s : DungeonManager) : A :=
  fst (fst (m s)).

Definition exec {A : Type} (m : Eff A) (s : DungeonManager) : DungeonManager :=
  snd (fst (m s)).

Definition log {A : Type} (m : Eff A) (s : DungeonManager) : list event :=
  snd (m s).

Declare Scope eff_scope.
Delimit Scope eff_scope with eff.
Notation "x <- m ;; k" := (bind m (fun x => k))
  (at level 100, m at next level, k at level 200, right associativity)
  : eff_scope.
Notation "m ;; k" := (bind m (fun _ => k))
  (at level 100, k at level 200, right associativity) : eff_scope.

(** ** The pool: [canFormParty], [formParty], [addPlayersToQueue] *)

Definition canFormParty (s : DungeonManager) : bool :=
  (1 <=? tank_queue s) && (1 <=? healer_queue s) && (3 <=? dps_queue s).

Definition formParty : Eff unit :=
  (modify (fun s => set_tank_queue (wrap (tank_queue s - 1)) s) ;;
   modify (fun s => set_healer_queue (wrap (healer_queue s - 1)) s) ;;
   modify (fun s => set_dps_queue (wrap (dps_queue s - 3)) s) ;;
   modify (fun s =>
     set_total_parties_formed (wrap (total_parties_formed s + 1)) s))%eff.

Definition addPlayersToQueue (tanks healers dps : Z) : Eff unit :=
  (modify (fun s => set_tank_queue (wrap (tank_queue s + tanks)) s) ;;
   modify (fun s => set_healer_queue (wrap (healer_queue s + healers)) s) ;;
   modify (fun s => set_dps_queue (wrap (dps_queue s + dps)) s) ;;
   modify (fun s =>
     set_total_players_added
       (wrap (total_players_added s + wrap (wrap (tanks + healers) + dps)))
       s) ;;
   emit (EvPrint (MsgAdded tanks healers dps)) ;;
   emit EvNotifyAll)%eff.

(** ** The worker loop: [dungeonInstance]

    One pass through [while (true)] is cut at the points where the thread
    gives up [mtx]: the first section runs from the return of [cv.wait] to
    [lock.unlock()] (or to [break], or to the end of the iteration), the
    draw and sleep run without the lock, and the last section runs from
    [lock.lock()] to the end of the iteration. *)
Inductive wstate : Type :=
| IDLE                              (* at the top of the loop, or inside cv.wait *)
| BUSY (dungeon_time : option Z)    (* unlocked: before the draw, or slept *)
| STOPPED.                          (* left the loop through break *)

(** The predicate of [cv.wait]. *)
Definition wait_pred (s : DungeonManager) : bool :=
  canFormParty s || shutdown s.

(** Lines [lock(mtx)] to [lock.unlock()], entered once [wait_pred] holds.
    [startInstances] hands out the indices [0 .. dungeon_count - 1]; for an
    index outside the vectors, where [operator[]] has no defined meaning,
    the vectors are left as they are. *)
Definition dungeonInstance_enter (instance_id : Z) : Eff wstate :=
  (emit EvLock ;;
   s <- get ;;
   if shutdown s && negb (canFormParty s) then
     emit EvUnlock ;;
     ret STOPPED
   else if canFormParty s then
     formParty ;;
     modify (fun s =>
       set_dungeon_active
         (<[Z.to_nat instance_id := true]> (dungeon_active s)) s) ;;
     modify (fun s =>
       set_parties_served
         (alter (fun v => wrap (v + 1)) (Z.to_nat instance_id)
            (parties_served s)) s) ;;
     emit (EvPrint (MsgPartyFormed (wrap (instance_id + 1)))) ;;
     emit EvUnlock ;;
     ret (BUSY None)
   else
     emit EvUnlock ;;
     ret IDLE)%eff.

(** [time_dist(gen)] and [sleep_for]; the value drawn is the caller's. *)
Definition dungeonInstance_draw (dungeon_time : Z) : Eff wstate :=
  (emit EvGen ;;
   emit (EvSleep dungeon_time) ;;
   ret (BUSY (Some dungeon_time)))%eff.

(** Lines [lock.lock()] to the end of the iteration. *)
Definition dungeonInstance_complete (instance_id dungeon_time : Z)
  : Eff wstate :=
  (emit EvLock ;;
   modify (fun s =>
     set_total_time_served
       (alter (fun v => wrap (v + dungeon_time)) (Z.to_nat instance_id)
          (total_time_served s)) s) ;;
   modify (fun s =>
     set_dungeon_active
       (<[Z.to_nat instance_id := false]> (dungeon_active s)) s) ;;
   emit (EvPrint (MsgCompleted (wrap (instance_id + 1)) dungeon_time)) ;;
   emit EvNotifyAll ;;
   emit EvUnlock ;;
   ret IDLE)%eff.

(** One step of worker [instance_id] in state [w]; [draw] is what
    [time_dist(gen)] returns if this step draws.  [None]: the thread cannot
    move (it stays inside [cv.wait], or it has left the loop). *)
Definition worker_step (instance_id draw : Z) (w : wstate) (s : DungeonManager)
  : option (wstate * DungeonManager * list event) :=
  match w with
  | IDLE =>
      if wait_pred s then Some (dungeonInstance_enter instance_id s) else None
  | BUSY None => Some (dungeonInstance_draw draw s)
  | BUSY (Some t) => Some (dungeonInstance_complete instance_id t s)
  | STOPPED => None
  end.

(** ** The coordinator's shutdown request (in [startInstances]) *)
Definition request_shutdown : Eff unit :=
  (emit EvLock ;;
   modify (set_shutdown true) ;;
   emit EvNotifyAll ;;
   emit EvUnlock)%eff.

(** ** The producer loop: [playerProducer]

    What one pass reads from outside: the clock ([elapsed], whole seconds
    since the start), [count_dist(gen)] and the successive
    [role_dist(gen)]. *)
Record tick : Type := mkTick {
  elapsed : Z;
  players_to_add : Z;
  role : nat -> Z
}.

(** The body of the [switch (role)]: no [default] case. *)
Definition assign_role (acc : Z * Z * Z) (r : Z) : Z * Z * Z :=
  let '(tanks_to_add, healers_to_add, dps_to_add) := acc in
  if r =? 0 then (wrap (tanks_to_add + 1), healers_to_add, dps_to_add)
  else if r =? 1 then (tanks_to_add, wrap (healers_to_add + 1), dps_to_add)
  else if r =? 2 then (tanks_to_add, healers_to_add, wrap (dps_to_add + 1))
  else acc.

(** [for (int i = 0; i < players_to_add; i++)]. *)
Definition draw_roles (tk : tick) : Z * Z * Z :=
  fold_left assign_role
    (map (role tk) (seq 0 (Z.to_nat (players_to_add tk)))) (0, 0, 0).

Fixpoint emit_n (n : nat) (e : event) : Eff unit :=
  match n with
  | O => ret tt
  | S n' => (emit e ;; emit_n n' e)%eff
  end.

(** One pass that does not stop. *)
Definition producer_tick (interval_ms : Z) (tk : tick) : Eff unit :=
  (emit EvGen ;;
   emit_n (Z.to_nat (players_to_add tk)) EvGen ;;
   let '(tanks_to_add, healers_to_add, dps_to_add) := draw_roles tk in
   emit EvLock ;;
   addPlayersToQueue tanks_to_add healers_to_add dps_to_add ;;
   emit EvUnlock ;;
   emit (EvSleep interval_ms))%eff.

Inductive pstate : Type :=
| PRODUCING       (* the readings supplied are used up, the loop goes on *)
| FINISHED.       (* left the loop through break *)

Fixpoint playerProducer (interval_ms max_runtime_seconds : Z)
  (ticks : list tick) : Eff pstate :=
  match ticks with
  | [] => ret PRODUCING
  | tk :: rest =>
      if max_runtime_seconds <=? elapsed tk then
        (emit (EvPrint MsgProducerStop) ;; ret FINISHED)%eff
      else
        (producer_tick interval_ms tk ;;
         playerProducer interval_ms max_runtime_seconds rest)%eff
  end.

(** The calls of [addPlayersToQueue] in a log: each prints one line. *)
Fixpoint adds_of (l : list event) : list (Z * Z * Z) :=
  match l with
  | [] => []
  | EvPrint (MsgAdded t h d) :: r => (t, h, d) :: adds_of r
  | _ :: r => adds_of r
  end.

(** The number of [cv.notify_all()] in a log. *)
Fixpoint count_notify (l : list event) : nat :=
  match l with
  | [] => O
  | EvNotifyAll :: r => S (count_notify r)
  | _ :: r => count_notify r
  end.

(** Whether some draw from [gen] in a thread's log happens while that
    thread does not hold [mtx]; [held] is whether it holds it at the start. *)
Fixpoint gen_unlocked (held : bool) (l : list event) : bool :=
  match l with
  | [] => false
  | EvLock :: r => gen_unlocked true r
  | EvUnlock :: r => gen_unlocked false r
  | EvGen :: r => negb held || gen_unlocked held r
  | _ :: r => gen_unlocked held r
  end.

(** ** Sequences of pool operations

    A withdraw is the guarded call of the worker loop,
    [if (canFormParty()) formParty()]; an add is a call of
    [addPlayersToQueue]. *)
Inductive op : Type :=
| Withdraw
| Add (tanks healers dps : Z).

(** [None]: a withdraw was asked for in a state that is not viable. *)
Definition apply_op (o : op) (s : DungeonManager) : option DungeonManager :=
  match o with
  | Withdraw => if canFormParty s then Some (exec formParty s) else None
  | Add tanks healers dps => Some (exec (addPlayersToQueue tanks healers dps) s)
  end.

(** The state after the whole sequence. *)
Fixpoint run (ops : list op) (s : DungeonManager) : option DungeonManager :=
  match ops with
  | [] => Some s
  | o :: rest =>
      match apply_op o s with
      | Some s' => run rest s'
      | None => None
      end
  end.

(** The states seen after each operation, in order. *)
Fixpoint observe (ops : list op) (s : DungeonManager)
  : option (list DungeonManager) :=
  match ops with
  | [] => Some []
  | o :: rest =>
      match apply_op o s with
      | Some s' =>
          match observe rest s' with
          | Some l => Some (s' :: l)
          | None => None
          end
      | None => None
      end
  end.

Definition pool_nonneg (s : DungeonManager) : bool :=
  (0 <=? tank_queue s) && (0 <=? healer_queue s) && (0 <=? dps_queue s).

Definition nonneg_args (o : op) : bool :=
  match o with
  | Withdraw => true
  | Add tanks healers dps => (0 <=? tanks) && (0 <=? healers) && (0 <=? dps)
  end.

(** The sums an add computes on the three counters are [int]s. *)
Definition counters_fit (o : op) (s : DungeonManager) : bool :=
  match o with
  | Withdraw => true
  | Add tanks healers dps =>
      is_int (tank_queue s + tanks) && is_int (healer_queue s + healers) &&
      is_int (dps_queue s + dps)
  end.

(** The formed-count can still be incremented. *)
Definition formed_fits (o : op) (s : DungeonManager) : bool :=
  match o with
  | Withdraw => total_parties_formed s <? INT_MAX
  | Add _ _ _ => true
  end.

(** [P] holds of every operation of the sequence in the state it is applied
    to. *)
Fixpoint along (P : op -> DungeonManager -> bool) (ops : list op)
  (s : DungeonManager) : bool :=
  match ops with
  | [] => true
  | o :: rest =>
      P o s &&
      match apply_op o s with
      | Some s' => along P rest s'
      | None => true
      end
  end.

Fixpoint added_tanks (ops : list op) : Z :=
  match ops with
  | [] => 0
  | Add tanks _ _ :: rest => tanks + added_tanks rest
  | Withdraw :: rest => added_tanks rest
  end.

Fixpoint added_healers (ops : list op) : Z :=
  match ops with
  | [] => 0
  | Add _ healers _ :: rest => healers + added_healers rest
  | Withdraw :: rest => added_healers rest
  end.

Fixpoint added_dps (ops : list op) : Z :=
  match ops with
  | [] => 0
  | Add _ _ dps :: rest => dps + added_dps rest
  | Withdraw :: rest => added_dps rest
  end.

(** ** The threads of [startInstances]

    The object and the worker threads over it; a schedule names, step by
    step, the worker that moves and the value its draw returns. *)
Record system : Type := mkSystem {
  manager : DungeonManager;
  instances : list wstate
}.

Definition spawn (s : DungeonManager) : system :=
  mkSystem s (replicate (Z.to_nat (dungeon_count s)) IDLE).

Definition sys_step (i : nat) (draw : Z) (sys : system) : option system :=
  match instances sys !! i with
  | Some w =>
      match worker_step (Z.of_nat i) draw w (manager sys) with
      | Some (w', s', _) => Some (mkSystem s' (<[i := w']> (instances sys)))
      | None => None
      end
  | None => None
  end.

Fixpoint sys_run (schedule : list (nat * Z)) (sys : system) : option system :=
  match schedule with
  | [] => Some sys
  | (i, draw) :: rest =>
      match sys_step i draw sys with
      | Some sys' => sys_run rest sys'
      | None => None
      end
  end.

(** ** Reading a producer run *)

(** The passes that add players: those before the first clock reading that
    reaches the budget. *)
Fixpoint live_ticks (max_runtime_seconds : Z) (ticks : list tick)
  : list tick :=
  match ticks with
  | [] => []
  | tk :: rest =>
      if max_runtime_seconds <=? elapsed tk then []
      else tk :: live_ticks max_runtime_seconds rest
  end.

(** What [count_dist(1, 3)] and [role_dist(0, 2)] promise of their draws. *)
Definition draws_in_range (tk : tick) : Prop :=
  1 <= players_to_add tk <= 3 /\ forall i, 0 <= role tk i <= 2.

Definition total3 (a : Z * Z * Z) : Z :=
  let '(tanks, healers, dps) := a in tanks + healers + dps.

Definition nonneg3 (a : Z * Z * Z) : Prop :=
  let '(tanks, healers, dps) := a in 0 <= tanks /\ 0 <= healers /\ 0 <= dps.

(** A clock that reads 0, 3 and 30 seconds, with one, three and two players
    drawn. *)
Definition sample_ticks : list tick :=
  [mkTick 0 1 (fun _ => 2);
   mkTick 3 3 (fun i => Z.of_nat (i mod 3));
   mkTick 30 2 (fun _ => 0)].

(** ** Reading the configuration ([dungeonManagerProducer.cpp])

    A line of input is the list of its characters, without the newline.
    [std::isdigit] and [std::isspace] are those of the "C" locale. *)
Definition isdigit (c : ascii) : bool :=
  (48 <=? nat_of_ascii c)%nat && (nat_of_ascii c <=? 57)%nat.

Definition isspace (c : ascii) : bool :=
  (nat_of_ascii c =? 32)%nat ||
  ((9 <=? nat_of_ascii c)%nat && (nat_of_ascii c <=? 13)%nat).

(** The [for (char c : input)] of [isValidIntegerInput], with its early
    [return false]; [foundDigit] is the flag so far. *)
Fixpoint scan_input (input : list ascii) (foundDigit : bool) : bool :=
  match input with
  | [] => foundDigit
  | c :: rest =>
      if isdigit c then scan_input rest true
      else if negb (isspace c) then false
      else scan_input rest foundDigit
  end.

Definition isValidIntegerInput (input : list ascii) : bool :=
  match input with
  | [] => false
  | _ => scan_input input false
  end.

(** [ss >> value] on a line that passed [isValidIntegerInput], hence made
    of digits and white space only: leading white space is skipped, the run
    of digits is read in base ten, and the extraction fails when there is no
    digit or when the number does not fit an [int]. *)
Fixpoint skip_ws (input : list ascii) : list ascii :=
  match input with
  | [] => []
  | c :: rest => if isspace c then skip_ws rest else input
  end.

Definition digit_value (c : ascii) : Z := Z.of_nat (nat_of_ascii c) - 48.

Fixpoint read_digits (input : list ascii) (acc : Z) : Z * list ascii :=
  match input with
  | [] => (acc, [])
  | c :: rest =>
      if isdigit c then read_digits rest (10 * acc + digit_value c)
      else (acc, input)
  end.

Definition extract_int (input : list ascii) : option Z * list ascii :=
  match skip_ws input with
  | [] => (None, [])
  | c :: rest =>
      if isdigit c then
        let '(v, after) := read_digits (c :: rest) 0 in
        if v <=? INT_MAX then (Some v, after) else (None, after)
      else (None, c :: rest)
  end.

(** [ss >> remaining]: whether another word follows. *)
Definition extract_word (input : list ascii) : bool :=
  match skip_ws input with
  | [] => false
  | _ :: _ => true
  end.

(** The messages of the two reading loops. *)
Inductive complaint : Type :=
| NotAnInteger        (* letters or special characters *)
| ExtraCharacters     (* more than a single integer *)
| NotPositive
| Negative
| NotParsed           (* "Please enter a valid integer." *)
| BelowMinimum (minValue : Z).

(** What one pass of the loop of [getValidatedInteger] does with a line. *)
Definition check_line (positiveOnly : bool) (input : list ascii)
  : Z + complaint :=
  if negb (isValidIntegerInput input) then inr NotAnInteger
  else
    match extract_int input with
    | (Some value, after) =>
        if extract_word after then inr ExtraCharacters
        else if positiveOnly && (value <=? 0) then inr NotPositive
        else if negb positiveOnly && (value <? 0) then inr Negative
        else inl value
    | (None, _) => inr NotParsed
    end.

(** [getValidatedInteger]: the value returned, the lines left unread and the
    complaints printed on the way.  [None]: the input ends before a line is
    accepted, and the loop does not return. *)
Fixpoint getValidatedInteger (positiveOnly : bool) (lines : list (list ascii))
  : option (Z * list (list ascii) * list complaint) :=
  match lines with
  | [] => None
  | input :: rest =>
      match check_line positiveOnly input with
      | inl value => Some (value, rest, [])
      | inr why =>
          match getValidatedInteger positiveOnly rest with
          | Some (value, rest', said) => Some (value, rest', why :: said)
          | None => None
          end
      end
  end.

Definition check_line_range (minValue : Z) (input : list ascii)
  : Z + complaint :=
  if negb (isValidIntegerInput input) then inr NotAnInteger
  else
    match extract_int input with
    | (Some value, after) =>
        if extract_word after then inr ExtraCharacters
        else if value <? minValue then inr (BelowMinimum minValue)
        else inl value
    | (None, _) => inr NotParsed
    end.

Fixpoint getValidatedIntegerWithRange (minValue : Z)
  (lines : list (list ascii))
  : option (Z * list (list ascii) * list complaint) :=
  match lines with
  | [] => None
  | input :: rest =>
      match check_line_range minValue input with
      | inl value => Some (value, rest, [])
      | inr why =>
          match getValidatedIntegerWithRange minValue rest with
          | Some (value, rest', said) => Some (value, rest', why :: said)
          | None => None
          end
      end
  end.

(** The six values [main] reads, in the order it reads them. *)
Record config : Type := mkConfig {
  cfg_n : Z; cfg_t : Z; cfg_h : Z; cfg_d : Z; cfg_t1 : Z; cfg_t2 : Z
}.

Definition read_config (lines : list (list ascii)) : option config :=
  match getValidatedInteger true lines with
  | None => None
  | Some (n, lines1, _) =>
  match getValidatedInteger false lines1 with
  | None => None
  | Some (t, lines2, _) =>
  match getValidatedInteger false lines2 with
  | None => None
  | Some (h, lines3, _) =>
  match getValidatedInteger false lines3 with
  | None => None
  | Some (d, lines4, _) =>
  match getValidatedInteger false lines4 with
  | None => None
  | Some (t1, lines5, _) =>
  match getValidatedIntegerWithRange t1 lines5 with
  | None => None
  | Some (t2, _, _) => Some (mkConfig n t h d t1 t2)
  end end end end end end.

(** The characters of a string constant. *)
Definition line (text : String.string) : list ascii :=
  String.list_ascii_of_string text.

Arguments line text%_string_scope.

Definition is_digit (c : ascii) : Prop := isdigit c = true.
Definition is_space (c : ascii) : Prop := isspace c = true.
Definition digit_or_space (c : ascii) : Prop := is_digit c \/ is_space c.

(** The number a run of digits denotes in base ten. *)
Definition decimal (digits : list ascii) : Z :=
  fold_left (fun acc c => 10 * acc + digit_value c) digits 0.

(** ** The whole system: workers, producer and coordinator

    One move of the system: a step of a worker, one call of
    [addPlayersToQueue] by the producer (under its [lock_guard]), or the
    coordinator's shutdown request. *)
Inductive action : Type :=
| ActWorker (i : nat) (draw : Z)
| ActAdd (tanks healers dps : Z)
| ActShutdown.

Definition sys_act (a : action) (sys : system) : option system :=
  match a with
  | ActWorker i draw => sys_step i draw sys
  | ActAdd tanks healers dps =>
      Some (mkSystem (exec (addPlayersToQueue tanks healers dps) (manager sys))
              (instances sys))
  | ActShutdown =>
      Some (mkSystem (exec request_shutdown (manager sys)) (instances sys))
  end.

Fixpoint sys_exec (acts : list action) (sys : system) : option system :=
  match acts with
  | [] => Some sys
  | a :: rest =>
      match sys_act a sys with
      | Some sys' => sys_exec rest sys'
      | None => None
      end
  end.

Definition is_add (a : action) : bool :=
  match a with
  | ActAdd _ _ _ => true
  | _ => false
  end.

(** A worker running on its own: up to [fuel] steps, the [k]-th draw read
    from [draws]; it halts where [worker_step] has no move. *)
Fixpoint worker_run (fuel : nat) (instance_id : Z) (draws : nat -> Z)
  (w : wstate) (s : DungeonManager) : wstate * DungeonManager :=
  match fuel with
  | O => (w, s)
  | S fuel' =>
      match worker_step instance_id (draws fuel') w s with
      | Some (w', s', _) => worker_run fuel' instance_id draws w' s'
      | None => (w, s)
      end
  end.

(** The test of the coordinator's loop in [dungeonManager.cpp]:
    [tank_queue < 1 || healer_queue < 1 || dps_queue < 3]. *)
Definition pool_exhausted (s : DungeonManager) : bool :=
  (tank_queue s <? 1) || (healer_queue s <? 1) || (dps_queue s <? 3).

(** The two totals [displayFinalSummary] accumulates over the rows
    [0 .. dungeon_count - 1]; a row outside the vectors, which the
    constructor rules out, counts for nothing. *)
Definition summary_row (s : DungeonManager) (acc : Z * Z) (i : nat) : Z * Z :=
  let '(total_parties, overall_time) := acc in
  (wrap (total_parties + default 0 (parties_served s !! i)),
   wrap (overall_time + default 0 (total_time_served s !! i))).

Definition summary_totals (s : DungeonManager) : Z * Z :=
  fold_left (summary_row s) (seq 0 (Z.to_nat (dungeon_count s))) (0, 0).

Fixpoint sum_list (l : list Z) : Z :=
  match l with
  | [] => 0
  | x :: r => x + sum_list r
  end.

(** What holds of the object and its workers from [startInstances] on. *)
Definition is_busy (w : wstate) : bool :=
  match w with
  | BUSY _ => true
  | _ => false
  end.

Record sys_inv (sys : system) : Prop := mkSysInv {
  inv_instances :
    length (instances sys) = Z.to_nat (dungeon_count (manager sys));
  inv_active :
    dungeon_active (manager sys) = is_busy <$> instances sys;
  inv_served :
    length (parties_served (manager sys)) = length (instances sys);
  inv_time :
    length (total_time_served (manager sys)) = length (instances sys);
  inv_stopped :
    forall i, instances sys !! i = Some STOPPED ->
              shutdown (manager sys) = true
}.

(** The served-counts are in step with the formed-count. *)
Definition nonneg (x : Z) : Prop := 0 <= x.

Definition served_ok (s : DungeonManager) : Prop :=
  Forall nonneg (parties_served s) /\
  sum_list (parties_served s) = total_parties_formed s /\
  0 <= total_parties_formed s.

(** The books of a run without producer that started with [t], [h] and
    [d] players: what is left is what there was, less the parties formed. *)
Definition no_adds (acts : list action) : bool :=
  forallb (fun a => negb (is_add a)) acts.

Definition accounts (t h d : Z) (s : DungeonManager) : Prop :=
  0 <= total_parties_formed s /\
  tank_queue s = t - total_parties_formed s /\
  healer_queue s = h - total_parties_formed s /\
  dps_queue s = d - 3 * total_parties_formed s /\
  0 <= tank_queue s /\ 0 <= healer_queue s /\ 0 <= dps_queue s.

Definition drain_inv (t h d : Z) (sys : system) : Prop :=
  accounts t h d (manager sys) /\
  forall i, instances sys !! i = Some STOPPED ->
            canFormParty (manager sys) = false.

(** The parties a pool can still give. *)
Definition parties_left (s : DungeonManager) : Z :=
  Z.min (tank_queue s) (Z.min (healer_queue s) (dps_queue s / 3)).

(** Steps that are enough for a lone worker in state [w] to finish. *)
Definition steps_needed (w : wstate) (s : DungeonManager) : nat :=
  match w with
  | IDLE => 3 * Z.to_nat (tank_queue s) + 1
  | BUSY None => 3 * Z.to_nat (tank_queue s) + 3
  | BUSY (Some _) => 3 * Z.to_nat (tank_queue s) + 2
  | STOPPED => 0
  end.

(** The players drawn over some passes of the producer. *)
Definition drawn (ticks : list tick) : Z :=
  sum_list (map players_to_add ticks).

(** The four counters are not negative and can take [3 * k] more. *)
Definition room (k : Z) (s : DungeonManager) : Prop :=
  (0 <= tank_queue s /\ tank_queue s + 3 * k <= INT_MAX) /\
  (0 <= healer_queue s /\ healer_queue s + 3 * k <= INT_MAX) /\
  (0 <= dps_queue s /\ dps_queue s + 3 * k <= INT_MAX) /\
  (0 <= total_players_added s /\ total_players_added s + 3 * k <= INT_MAX).

(** The object after a list of [addPlayersToQueue] calls, in order. *)
Fixpoint apply_adds (adds : list (Z * Z * Z)) (s : DungeonManager)
  : DungeonManager :=
  match adds with
  | [] => s
  | (tanks, healers, dps) :: rest =>
      apply_adds rest (exec (addPlayersToQueue tanks healers dps) s)
  end.

(** ** States used as examples *)

(** A viable pool whose formed-count is the largest [int]. *)
Definition s_formed_max : DungeonManager :=
  mkDungeonManager 1 1 3 1 [false] [0] [0] INT_MAX 0 false.

(** An empty pool whose added-count is the largest [int]. *)
Definition s_added_max : DungeonManager :=
  mkDungeonManager 0 0 0 1 [false] [0] [0] 0 INT_MAX false.

(** A pool whose tank queue is full: the constructor called with
    [t = INT_MAX]. *)
Definition s_tanks_max : DungeonManager := DungeonManager_new 1 INT_MAX 0 0.

(** The counters are [int]s and none is negative. *)
Definition count_ok (z : Z) : Prop := 0 <= z <= INT_MAX.

Definition pool_ok (s : DungeonManager) : Prop :=
  count_ok (tank_queue s) /\ count_ok (healer_queue s) /\
  count_ok (dps_queue s).

(** The counters and the formed-count are [int]s. *)
Definition pool_ints (s : DungeonManager) : Prop :=
  in_int (tank_queue s) /\ in_int (healer_queue s) /\
  in_int (dps_queue s) /\ in_int (total_parties_formed s).

Definition exact (o : op) (s : DungeonManager) : bool :=
  counters_fit o s && formed_fits o s.

(** * Properties *)

Ltac int_bounds := unfold count_ok, in_int, INT_MIN, INT_MAX in *.

(** ** Arithmetic of [wrap] *)

Lemma is_int_spec z : is_int z = true <-> in_int z.
Proof.
  unfold is_int, in_int. rewrite andb_true_iff, !Z.leb_le. tauto.
Qed.

Lemma wrap_small z : in_int z -> wrap z = z.
Proof.
  unfold in_int, INT_MIN, INT_MAX, wrap, modulus. intros Hz.
  rewrite Z.mod_small by lia. lia.
Qed.

Lemma wrap_range z : in_int (wrap z).
Proof.
  unfold in_int, INT_MIN, INT_MAX, wrap, modulus.
  pose proof (Z.mod_pos_bound (z + 2147483648) 4294967296 ltac:(lia)). lia.
Qed.

Lemma wrap_congr z : (wrap z) mod modulus = z mod modulus.
Proof.
  unfold wrap, modulus.
  rewrite Zminus_mod, Z.mod_mod by lia.
  rewrite <- Zminus_mod. f_equal. lia.
Qed.

Lemma wrap_add_l a b : wrap (wrap a + b) = wrap (a + b).
Proof.
  unfold wrap at 1 3. f_equal.
  replace (wrap a + b + 2147483648) with (wrap a + (b + 2147483648)) by lia.
  replace (a + b + 2147483648) with (a + (b + 2147483648)) by lia.
  rewrite (Z.add_mod (wrap a)), (Z.add_mod a) by (unfold modulus; lia).
  now rewrite wrap_congr.
Qed.

Lemma wf_fields s :
  wf s = true ->
  in_int (tank_queue s) /\ in_int (healer_queue s) /\ in_int (dps_queue s) /\
  in_int (total_parties_formed s) /\ in_int (total_players_added s).
Proof.
  unfold wf. rewrite !andb_true_iff, !is_int_spec. tauto.
Qed.

Lemma is_int_wrap z : is_int (wrap z) = true.
Proof. apply is_int_spec, wrap_range. Qed.

Lemma canFormParty_true s :
  canFormParty s = true <->
  1 <= tank_queue s /\ 1 <= healer_queue s /\ 3 <= dps_queue s.
Proof.
  unfold canFormParty. rewrite !andb_true_iff, !Z.leb_le. tauto.
Qed.

(** ** Sequencing *)

Lemma bind_value {A B : Type} (m : Eff A) (k : A -> Eff B) s :
  value (bind m k) s = value (k (value m s)) (exec m s).
Proof.
  unfold value, exec, bind. destruct (m s) as [[a s1] l1]. cbn.
  now destruct (k a s1) as [[b s2] l2].
Qed.

Lemma bind_exec {A B : Type} (m : Eff A) (k : A -> Eff B) s :
  exec (bind m k) s = exec (k (value m s)) (exec m s).
Proof.
  unfold value, exec, bind. destruct (m s) as [[a s1] l1]. cbn.
  now destruct (k a s1) as [[b s2] l2].
Qed.

Lemma bind_log {A B : Type} (m : Eff A) (k : A -> Eff B) s :
  log (bind m k) s = log m s ++ log (k (value m s)) (exec m s).
Proof.
  unfold value, exec, log, bind. destruct (m s) as [[a s1] l1]. cbn.
  now destruct (k a s1) as [[b s2] l2].
Qed.

(** ** What [formParty] and [addPlayersToQueue] compute, field by field *)

Lemma formParty_exec s :
  exec formParty s =
  mkDungeonManager (wrap (tank_queue s - 1)) (wrap (healer_queue s - 1))
    (wrap (dps_queue s - 3)) (dungeon_count s) (dungeon_active s)
    (parties_served s) (total_time_served s)
    (wrap (total_parties_formed s + 1)) (total_players_added s) (shutdown s).
Proof. reflexivity. Qed.

Lemma formParty_log s : log formParty s = [].
Proof. reflexivity. Qed.

Lemma addPlayersToQueue_exec tanks healers dps s :
  exec (addPlayersToQueue tanks healers dps) s =
  mkDungeonManager (wrap (tank_queue s + tanks))
    (wrap (healer_queue s + healers)) (wrap (dps_queue s + dps))
    (dungeon_count s) (dungeon_active s) (parties_served s)
    (total_time_served s) (total_parties_formed s)
    (wrap (total_players_added s + wrap (wrap (tanks + healers) + dps)))
    (shutdown s).
Proof. reflexivity. Qed.

Lemma addPlayersToQueue_log tanks healers dps s :
  log (addPlayersToQueue tanks healers dps) s =
  [EvPrint (MsgAdded tanks healers dps); EvNotifyAll].
Proof. reflexivity. Qed.

(** Both operations keep every [int] member an [int]. *)
Lemma formParty_wf s : wf s = true -> wf (exec formParty s) = true.
Proof.
  unfold wf. rewrite formParty_exec. cbn.
  rewrite !andb_true_iff, !is_int_wrap. tauto.
Qed.

Lemma addPlayersToQueue_wf tanks healers dps s :
  wf s = true -> wf (exec (addPlayersToQueue tanks healers dps) s) = true.
Proof.
  unfold wf. rewrite addPlayersToQueue_exec. cbn.
  rewrite !andb_true_iff, !is_int_wrap. tauto.
Qed.

(** ** The pool operations *)

(** C2.  [canFormParty] answers true exactly when there is at least one
    tank, at least one healer and at least three dps in the queues. *)
Theorem canFormParty_iff (s : DungeonManager) :
  canFormParty s = true <->
  tank_queue s >= 1 /\ healer_queue s >= 1 /\ dps_queue s >= 3.
Proof.
  rewrite canFormParty_true. lia.
Qed.

(** C1 fails as stated: in a viable state whose formed-count is [INT_MAX]
    the atomic [++] wraps to [INT_MIN]; the count does not grow by one. *)
Lemma formParty_formed_wraps :
  wf s_formed_max = true /\
  canFormParty s_formed_max = true /\
  total_parties_formed (exec formParty s_formed_max) = INT_MIN /\
  total_parties_formed (exec formParty s_formed_max)
    <> total_parties_formed s_formed_max + 1.
Proof.
  repeat split; try reflexivity. vm_compute. discriminate.
Qed.

(** C1, amended.  In every viable state [formParty] takes exactly one
    tank, one healer and three dps out of the queues; and it adds exactly
    one to [total_parties_formed] when that count is below [INT_MAX]. *)
Theorem formParty_withdraws_bundle (s : DungeonManager) :
  wf s = true ->
  canFormParty s = true ->
  tank_queue (exec formParty s) = tank_queue s - 1 /\
  healer_queue (exec formParty s) = healer_queue s - 1 /\
  dps_queue (exec formParty s) = dps_queue s - 3 /\
  (total_parties_formed s < INT_MAX ->
   total_parties_formed (exec formParty s) = total_parties_formed s + 1).
Proof.
  intros Hwf Hcan.
  apply wf_fields in Hwf. destruct Hwf as (Ht & Hh & Hd & Hf & _).
  apply canFormParty_true in Hcan. destruct Hcan as (Ht1 & Hh1 & Hd3).
  rewrite formParty_exec. cbn.
  unfold in_int, INT_MIN, INT_MAX in *.
  repeat split; try intros Hlt;
    apply wrap_small; unfold in_int, INT_MIN, INT_MAX; lia.
Qed.

Lemma formParty_withdraws_bundle_witness :
  (tank_queue (exec formParty (DungeonManager_new 2 1 1 3)) = 0 /\
   healer_queue (exec formParty (DungeonManager_new 2 1 1 3)) = 0 /\
   dps_queue (exec formParty (DungeonManager_new 2 1 1 3)) = 0 /\
   total_parties_formed (exec formParty (DungeonManager_new 2 1 1 3)) = 1) /\
  tank_queue (exec formParty s_formed_max) = 0 /\
  healer_queue (exec formParty s_formed_max) = 0 /\
  dps_queue (exec formParty s_formed_max) = 0.
Proof.
  destruct (formParty_withdraws_bundle (DungeonManager_new 2 1 1 3)
              eq_refl eq_refl) as (Et & Eh & Ed & Ef).
  destruct (formParty_withdraws_bundle s_formed_max eq_refl eq_refl)
    as (Et' & Eh' & Ed' & _).
  split.
  - split; [exact Et|]. split; [exact Eh|]. split; [exact Ed|].
    apply Ef. vm_compute. reflexivity.
  - split; [exact Et'|]. split; [exact Eh' | exact Ed'].
Defined.

(** C10 fails as stated: when [total_players_added] is [INT_MAX], adding one
    tank wraps the atomic counter to [INT_MIN]; it does not grow by the sum
    of the arguments. *)
Lemma addPlayersToQueue_added_wraps :
  wf s_added_max = true /\
  total_players_added (exec (addPlayersToQueue 1 0 0) s_added_max) = INT_MIN /\
  total_players_added (exec (addPlayersToQueue 1 0 0) s_added_max)
    <> total_players_added s_added_max + (1 + 0 + 0).
Proof.
  repeat split; try reflexivity. vm_compute. discriminate.
Qed.

(** C10, amended.  [formParty] and [addPlayersToQueue] leave
    [dungeon_active], [parties_served], [total_time_served] and [shutdown]
    as they are; [formParty] leaves [total_players_added] as it is;
    [addPlayersToQueue] leaves [total_parties_formed] as it is, and adds the
    sum of its three arguments to [total_players_added] when the sum and the
    new total are [int]s. *)
Theorem pool_operations_frame (s : DungeonManager) (tanks healers dps : Z) :
  (dungeon_active (exec formParty s) = dungeon_active s /\
   parties_served (exec formParty s) = parties_served s /\
   total_time_served (exec formParty s) = total_time_served s /\
   shutdown (exec formParty s) = shutdown s /\
   total_players_added (exec formParty s) = total_players_added s) /\
  (dungeon_active (exec (addPlayersToQueue tanks healers dps) s)
     = dungeon_active s /\
   parties_served (exec (addPlayersToQueue tanks healers dps) s)
     = parties_served s /\
   total_time_served (exec (addPlayersToQueue tanks healers dps) s)
     = total_time_served s /\
   shutdown (exec (addPlayersToQueue tanks healers dps) s) = shutdown s /\
   total_parties_formed (exec (addPlayersToQueue tanks healers dps) s)
     = total_parties_formed s) /\
  (in_int (tanks + healers + dps) ->
   in_int (total_players_added s + (tanks + healers + dps)) ->
   total_players_added (exec (addPlayersToQueue tanks healers dps) s)
     = total_players_added s + (tanks + healers + dps)).
Proof.
  rewrite formParty_exec, addPlayersToQueue_exec. cbn.
  repeat split.
  intros Hsum Htot.
  rewrite wrap_add_l, (wrap_small _ Hsum). now apply wrap_small.
Qed.

Lemma pool_operations_frame_witness :
  total_players_added
    (exec (addPlayersToQueue 1 0 2) (DungeonManager_new 2 1 1 3)) = 0 + (1 + 0 + 2).
Proof.
  apply (pool_operations_frame (DungeonManager_new 2 1 1 3) 1 0 2);
    unfold in_int, INT_MIN, INT_MAX; cbn; lia.
Defined.

(** ** Sequences of operations: the counters *)

Lemma pool_ok_of_wf s : wf s = true -> pool_nonneg s = true -> pool_ok s.
Proof.
  intros Hwf Hnn. apply wf_fields in Hwf.
  unfold pool_nonneg in Hnn. rewrite !andb_true_iff, !Z.leb_le in Hnn.
  unfold pool_ok. int_bounds. lia.
Qed.

Lemma pool_ok_nonneg s : pool_ok s -> pool_nonneg s = true.
Proof.
  unfold pool_ok, pool_nonneg, count_ok.
  rewrite !andb_true_iff, !Z.leb_le. lia.
Qed.

Lemma apply_op_pool_ok o s s' :
  apply_op o s = Some s' ->
  nonneg_args o = true ->
  counters_fit o s = true ->
  pool_ok s -> pool_ok s'.
Proof.
  unfold pool_ok. intros Hstep Hargs Hfit (Ht & Hh & Hd).
  destruct o as [|tanks healers dps]; unfold apply_op in Hstep.
  - destruct (canFormParty s) eqn:Hcan; [|discriminate].
    apply canFormParty_true in Hcan.
    injection Hstep as <-. rewrite formParty_exec. cbn.
    rewrite !wrap_small by (int_bounds; lia). int_bounds. lia.
  - injection Hstep as <-. rewrite addPlayersToQueue_exec. cbn.
    cbn in Hargs, Hfit.
    rewrite !andb_true_iff, !Z.leb_le in Hargs.
    rewrite !andb_true_iff, !is_int_spec in Hfit.
    destruct Hfit as ((Hft & Hfh) & Hfd).
    rewrite !wrap_small by assumption. int_bounds. lia.
Qed.

Lemma observe_pool_ok ops : forall s states,
  pool_ok s ->
  forallb nonneg_args ops = true ->
  along counters_fit ops s = true ->
  observe ops s = Some states ->
  forallb pool_nonneg states = true.
Proof.
  induction ops as [|o rest IH]; intros s states Hok Hargs Hfit Hobs.
  - injection Hobs as <-. reflexivity.
  - cbn in Hargs, Hfit, Hobs.
    apply andb_true_iff in Hargs as [Ho Hrest].
    apply andb_true_iff in Hfit as [Hfo Hfrest].
    destruct (apply_op o s) as [s1|] eqn:Hstep; [|discriminate].
    destruct (observe rest s1) as [l|] eqn:Hl; [|discriminate].
    injection Hobs as <-.
    assert (Hok1 : pool_ok s1) by (eapply apply_op_pool_ok; eauto).
    cbn. rewrite (pool_ok_nonneg _ Hok1). cbn. eapply IH; eauto.
Qed.

(** C3 fails as stated: the constructor called with [INT_MAX] tanks and one
    add of a single tank leave the tank counter at [INT_MIN]. *)
Lemma add_overflows_negative :
  wf s_tanks_max = true /\
  pool_nonneg s_tanks_max = true /\
  forallb nonneg_args [Add 1 0 0] = true /\
  exists s', observe [Add 1 0 0] s_tanks_max = Some [s'] /\
             tank_queue s' = INT_MIN /\ pool_nonneg s' = false.
Proof.
  split; [reflexivity|]. split; [reflexivity|]. split; [reflexivity|].
  eexists. split; [reflexivity|]. split; reflexivity.
Qed.

(** C3, amended.  Start from counters that are not negative; let every
    withdraw happen in a viable state, every add have arguments that are not
    negative, and no add take a counter beyond [INT_MAX].  Then after every
    operation none of the three counters is negative. *)
Theorem counters_stay_nonneg (s : DungeonManager) (ops : list op)
  (states : list DungeonManager) :
  wf s = true ->
  pool_nonneg s = true ->
  forallb nonneg_args ops = true ->
  along counters_fit ops s = true ->
  observe ops s = Some states ->
  forallb pool_nonneg states = true.
Proof.
  intros Hwf Hnn. apply observe_pool_ok. now apply pool_ok_of_wf.
Qed.

Lemma counters_stay_nonneg_witness :
  forallb pool_nonneg
    [exec (addPlayersToQueue 1 0 2) (DungeonManager_new 2 0 1 1);
     exec formParty
       (exec (addPlayersToQueue 1 0 2) (DungeonManager_new 2 0 1 1))] = true.
Proof.
  apply (counters_stay_nonneg (DungeonManager_new 2 0 1 1)
           [Add 1 0 2; Withdraw]); reflexivity.
Defined.

(** ** Sequences of operations: conservation *)

Lemma apply_op_conserves o s s' :
  apply_op o s = Some s' ->
  exact o s = true ->
  pool_ints s ->
  pool_ints s' /\
  total_parties_formed s' * 1 + tank_queue s'
    = total_parties_formed s * 1 + tank_queue s + added_tanks [o] /\
  total_parties_formed s' * 1 + healer_queue s'
    = total_parties_formed s * 1 + healer_queue s + added_healers [o] /\
  total_parties_formed s' * 3 + dps_queue s'
    = total_parties_formed s * 3 + dps_queue s + added_dps [o].
Proof.
  unfold pool_ints, exact. intros Hstep Hex (Ht & Hh & Hd & Hf).
  apply andb_true_iff in Hex as [Hfit Hformed].
  destruct o as [|tanks healers dps]; unfold apply_op in Hstep.
  - destruct (canFormParty s) eqn:Hcan; [|discriminate].
    apply canFormParty_true in Hcan.
    cbn in Hformed. apply Z.ltb_lt in Hformed.
    injection Hstep as <-. rewrite formParty_exec. cbn.
    rewrite !wrap_small by (int_bounds; lia). int_bounds. lia.
  - injection Hstep as <-. rewrite addPlayersToQueue_exec. cbn.
    cbn in Hfit. rewrite !andb_true_iff, !is_int_spec in Hfit.
    destruct Hfit as ((Hft & Hfh) & Hfd).
    rewrite !wrap_small by assumption. int_bounds. lia.
Qed.

Lemma run_conserves ops : forall s s',
  pool_ints s ->
  along exact ops s = true ->
  run ops s = Some s' ->
  total_parties_formed s' * 1 + tank_queue s'
    = total_parties_formed s * 1 + tank_queue s + added_tanks ops /\
  total_parties_formed s' * 1 + healer_queue s'
    = total_parties_formed s * 1 + healer_queue s + added_healers ops /\
  total_parties_formed s' * 3 + dps_queue s'
    = total_parties_formed s * 3 + dps_queue s + added_dps ops.
Proof.
  induction ops as [|o rest IH]; intros s s' Hints Hex Hrun.
  - injection Hrun as <-. cbn. lia.
  - cbn in Hex, Hrun.
    apply andb_true_iff in Hex as [Ho Hrest].
    destruct (apply_op o s) as [s1|] eqn:Hstep; [|discriminate].
    destruct (apply_op_conserves _ _ _ Hstep Ho Hints)
      as (Hints1 & Et & Eh & Ed).
    destruct (IH _ _ Hints1 Hrest Hrun) as (Et' & Eh' & Ed').
    destruct o as [|tanks healers dps]; cbn in Et, Eh, Ed |- *; lia.
Qed.

(** C4 fails as stated: after the constructor called with [INT_MAX] tanks
    and one add of a single tank, formed-count times one plus the tanks left
    is [INT_MIN], not the initial count plus the one added. *)
Lemma add_overflow_breaks_conservation :
  wf s_tanks_max = true /\
  exists s', run [Add 1 0 0] s_tanks_max = Some s' /\
             total_parties_formed s' * 1 + tank_queue s' = INT_MIN /\
             total_parties_formed s' * 1 + tank_queue s'
               <> INT_MAX + added_tanks [Add 1 0 0].
Proof.
  split; [reflexivity|].
  eexists. split; [reflexivity|]. split; [reflexivity|].
  vm_compute. discriminate.
Qed.

(** C4, amended.  Start from the constructor's state; let every withdraw
    happen in a viable state, no add take a counter out of the range of
    [int], and no withdraw happen with the formed-count at [INT_MAX].  Then
    in the state reached, for each category, formed-count times the
    category's share of a party (1, 1, 3) plus the count left equals the
    initial count plus everything added to the category. *)
Theorem conservation (n t h d : Z) (ops : list op) (s' : DungeonManager) :
  in_int t -> in_int h -> in_int d ->
  along exact ops (DungeonManager_new n t h d) = true ->
  run ops (DungeonManager_new n t h d) = Some s' ->
  total_parties_formed s' * 1 + tank_queue s' = t + added_tanks ops /\
  total_parties_formed s' * 1 + healer_queue s' = h + added_healers ops /\
  total_parties_formed s' * 3 + dps_queue s' = d + added_dps ops.
Proof.
  intros Ht Hh Hd Hex Hrun.
  assert (Hints : pool_ints (DungeonManager_new n t h d)).
  { unfold pool_ints. cbn. int_bounds. lia. }
  pose proof (run_conserves ops _ _ Hints Hex Hrun) as Hcons.
  cbn in Hcons. lia.
Qed.

Lemma conservation_witness :
  exists s',
    run [Add 1 0 2; Withdraw; Add 0 2 0] (DungeonManager_new 2 0 1 1)
      = Some s' /\
    total_parties_formed s' * 1 + tank_queue s'
      = 0 + added_tanks [Add 1 0 2; Withdraw; Add 0 2 0] /\
    total_parties_formed s' * 1 + healer_queue s'
      = 1 + added_healers [Add 1 0 2; Withdraw; Add 0 2 0] /\
    total_parties_formed s' * 3 + dps_queue s'
      = 1 + added_dps [Add 1 0 2; Withdraw; Add 0 2 0].
Proof.
  eexists. split; [reflexivity|].
  apply (conservation 2 0 1 1 [Add 1 0 2; Withdraw; Add 0 2 0]);
    try reflexivity; unfold in_int, INT_MIN, INT_MAX; lia.
Defined.

(** ** The worker loop *)

(** The members as the withdrawing section of worker [instance_id] leaves
    them. *)
Lemma dungeonInstance_enter_form instance_id s :
  canFormParty s = true ->
  dungeonInstance_enter instance_id s =
  (BUSY None,
   set_parties_served
     (alter (fun v => wrap (v + 1)) (Z.to_nat instance_id) (parties_served s))
     (set_dungeon_active
        (<[Z.to_nat instance_id := true]> (dungeon_active s))
        (exec formParty s)),
   [EvLock; EvPrint (MsgPartyFormed (wrap (instance_id + 1))); EvUnlock]).
Proof.
  intros Hcan. unfold dungeonInstance_enter, bind, get, emit.
  rewrite Hcan, andb_false_r. reflexivity.
Qed.

Lemma dungeonInstance_enter_stop instance_id s :
  shutdown s = true -> canFormParty s = false ->
  dungeonInstance_enter instance_id s = (STOPPED, s, [EvLock; EvUnlock]).
Proof.
  intros Hsh Hcan. unfold dungeonInstance_enter, bind, get, emit.
  rewrite Hsh, Hcan. reflexivity.
Qed.

Lemma dungeonInstance_enter_idle instance_id s :
  shutdown s = false -> canFormParty s = false ->
  dungeonInstance_enter instance_id s = (IDLE, s, [EvLock; EvUnlock]).
Proof.
  intros Hsh Hcan. unfold dungeonInstance_enter, bind, get, emit.
  rewrite Hsh, Hcan. reflexivity.
Qed.

Lemma dungeonInstance_complete_eq instance_id dungeon_time s :
  dungeonInstance_complete instance_id dungeon_time s =
  (IDLE,
   set_dungeon_active
     (<[Z.to_nat instance_id := false]> (dungeon_active s))
     (set_total_time_served
        (alter (fun v => wrap (v + dungeon_time)) (Z.to_nat instance_id)
           (total_time_served s)) s),
   [EvLock; EvPrint (MsgCompleted (wrap (instance_id + 1)) dungeon_time);
    EvNotifyAll; EvUnlock]).
Proof. reflexivity. Qed.

(** C5.  A step of a worker ends in [STOPPED] exactly when the worker is at
    the top of its loop with [shutdown] set and no party formable, and in
    that case the step exists.  With [shutdown] set and a party formable the
    worker forms it and becomes busy; from there, whatever the others do to
    the object meanwhile, it draws its time, sleeps and records the run, and
    only then is back at the top of the loop. *)
Theorem worker_stops_exactly_when_drained
  (instance_id draw : Z) (w : wstate) (s : DungeonManager) :
  (forall w' s' l,
     worker_step instance_id draw w s = Some (w', s', l) ->
     (w' = STOPPED <->
      w = IDLE /\ shutdown s = true /\ canFormParty s = false)) /\
  (shutdown s = true -> canFormParty s = false ->
   worker_step instance_id draw IDLE s = Some (STOPPED, s, [EvLock; EvUnlock])) /\
  (shutdown s = true -> canFormParty s = true ->
   worker_step instance_id draw IDLE s =
     Some (dungeonInstance_enter instance_id s) /\
   value (dungeonInstance_enter instance_id) s = BUSY None /\
   tank_queue (exec (dungeonInstance_enter instance_id) s)
     = wrap (tank_queue s - 1) /\
   healer_queue (exec (dungeonInstance_enter instance_id) s)
     = wrap (healer_queue s - 1) /\
   dps_queue (exec (dungeonInstance_enter instance_id) s)
     = wrap (dps_queue s - 3) /\
   (forall s1,
      worker_step instance_id draw (BUSY None) s1 =
        Some (BUSY (Some draw), s1, [EvGen; EvSleep draw])) /\
   (forall s2 draw',
      worker_step instance_id draw' (BUSY (Some draw)) s2 =
        Some (dungeonInstance_complete instance_id draw s2) /\
      value (dungeonInstance_complete instance_id draw) s2 = IDLE)).
Proof.
  split; [|split].
  - intros w' s' l Hstep. destruct w as [|[t|]|]; unfold worker_step in Hstep.
    + unfold wait_pred in Hstep.
      destruct (canFormParty s) eqn:Hcan, (shutdown s) eqn:Hsh;
        cbn [orb] in Hstep; try discriminate.
      * rewrite dungeonInstance_enter_form in Hstep by assumption.
        injection Hstep as <- <- <-.
        split; [discriminate | intros (_ & _ & ?); discriminate].
      * rewrite dungeonInstance_enter_form in Hstep by assumption.
        injection Hstep as <- <- <-.
        split; [discriminate | intros (_ & _ & ?); discriminate].
      * rewrite dungeonInstance_enter_stop in Hstep by assumption.
        injection Hstep as <- <- <-. tauto.
    + rewrite dungeonInstance_complete_eq in Hstep.
      injection Hstep as <- <- <-.
      split; [discriminate | intros (? & _); discriminate].
    + injection Hstep as <- <- <-.
      split; [discriminate | intros (? & _); discriminate].
    + discriminate.
  - intros Hsh Hcan. unfold worker_step, wait_pred.
    rewrite Hsh, orb_true_r.
    now rewrite dungeonInstance_enter_stop.
  - intros Hsh Hcan. unfold worker_step, wait_pred. rewrite Hcan.
    cbn [orb]. unfold value, exec.
    rewrite dungeonInstance_enter_form by assumption.
    cbn. repeat split.
Qed.

Lemma worker_stops_exactly_when_drained_witness :
  worker_step 0 4 IDLE (set_shutdown true (DungeonManager_new 1 0 0 0))
    = Some (STOPPED, set_shutdown true (DungeonManager_new 1 0 0 0),
            [EvLock; EvUnlock]) /\
  value (dungeonInstance_enter 0) (set_shutdown true (DungeonManager_new 1 1 1 3))
    = BUSY None.
Proof.
  split.
  - apply (proj1 (proj2 (worker_stops_exactly_when_drained 0 4 IDLE
             (set_shutdown true (DungeonManager_new 1 0 0 0)))));
      reflexivity.
  - apply (proj2 (proj2 (worker_stops_exactly_when_drained 0 4 IDLE
             (set_shutdown true (DungeonManager_new 1 1 1 3)))));
      reflexivity.
Defined.

(** C7 fails as stated: worker 0 forming a party out of the constructor's
    state for [(2, 1, 1, 3)] has its served-count raised by the step that
    makes it busy, before any busy time is recorded. *)
Lemma parties_served_counted_at_withdraw :
  exists s1 l,
    worker_step 0 5 IDLE (DungeonManager_new 2 1 1 3)
      = Some (BUSY None, s1, l) /\
    parties_served (DungeonManager_new 2 1 1 3) = [0; 0] /\
    parties_served s1 = [1; 0] /\
    dungeon_active s1 = [true; false] /\
    total_time_served s1 = [0; 0].
Proof.
  eexists. eexists. split; [reflexivity|]. repeat split.
Qed.

(** C7, amended.  For a worker whose index is within the vectors: the step
    that completes the busy phase (lock taken again after the sleep) adds
    the drawn time to the worker's [total_time_served] entry, marks it not
    active, leaves [parties_served] as it is and returns to the top of the
    loop; the worker's [parties_served] entry is raised earlier, by the step
    that forms the party and marks the worker active, which leaves
    [total_time_served] as it is; the draw and sleep change no member. *)
Theorem worker_statistics_recording
  (instance_id dungeon_time : Z) (s : DungeonManager) (served time : Z) :
  parties_served s !! Z.to_nat instance_id = Some served ->
  total_time_served s !! Z.to_nat instance_id = Some time ->
  (Z.to_nat instance_id < length (dungeon_active s))%nat ->
  (value (dungeonInstance_complete instance_id dungeon_time) s = IDLE /\
   total_time_served
     (exec (dungeonInstance_complete instance_id dungeon_time) s)
     !! Z.to_nat instance_id = Some (wrap (time + dungeon_time)) /\
   dungeon_active
     (exec (dungeonInstance_complete instance_id dungeon_time) s)
     !! Z.to_nat instance_id = Some false /\
   parties_served
     (exec (dungeonInstance_complete instance_id dungeon_time) s)
     = parties_served s) /\
  (canFormParty s = true ->
   value (dungeonInstance_enter instance_id) s = BUSY None /\
   parties_served (exec (dungeonInstance_enter instance_id) s)
     !! Z.to_nat instance_id = Some (wrap (served + 1)) /\
   dungeon_active (exec (dungeonInstance_enter instance_id) s)
     !! Z.to_nat instance_id = Some true /\
   total_time_served (exec (dungeonInstance_enter instance_id) s)
     = total_time_served s) /\
  exec (dungeonInstance_draw dungeon_time) s = s.
Proof.
  intros Hserved Htime Hlen. split; [|split].
  - unfold value, exec. rewrite dungeonInstance_complete_eq. cbn.
    rewrite list_lookup_alter_eq, Htime.
    rewrite list_lookup_insert_eq by assumption. repeat split.
  - intros Hcan. unfold value, exec.
    rewrite dungeonInstance_enter_form by assumption. cbn.
    rewrite list_lookup_alter_eq, Hserved.
    rewrite list_lookup_insert_eq by assumption. repeat split.
  - reflexivity.
Qed.

Lemma worker_statistics_recording_witness :
  total_time_served
    (exec (dungeonInstance_complete 1 7) (DungeonManager_new 2 1 1 3))
    !! Z.to_nat 1 = Some (wrap (0 + 7)) /\
  parties_served (exec (dungeonInstance_enter 1) (DungeonManager_new 2 1 1 3))
    !! Z.to_nat 1 = Some (wrap (0 + 1)).
Proof.
  pose proof (worker_statistics_recording 1 7 (DungeonManager_new 2 1 1 3) 0 0
                eq_refl eq_refl ltac:(vm_compute; lia)) as (Hc & He & _).
  split.
  - apply Hc.
  - apply (He eq_refl).
Defined.

(** ** Broadcasts *)

(** C6 fails as stated: worker 0 withdrawing the only party of the
    constructor's state for [(2, 1, 1, 3)] empties the pool, which turns the
    wait condition false, and neither [formParty] nor the step around it
    calls [notify_all]. *)
Lemma withdraw_without_broadcast :
  log formParty (DungeonManager_new 2 1 1 3) = [] /\
  exists s1 l,
    worker_step 0 5 IDLE (DungeonManager_new 2 1 1 3)
      = Some (BUSY None, s1, l) /\
    wait_pred (DungeonManager_new 2 1 1 3) = true /\
    wait_pred s1 = false /\
    count_notify l = 0%nat.
Proof.
  split; [reflexivity|].
  eexists. eexists. split; [reflexivity|]. repeat split.
Qed.

(** C6, amended.  Every add broadcasts once, as the last thing
    [addPlayersToQueue] does; so do the shutdown request and the step that
    completes a worker's busy phase.  A withdraw does not broadcast:
    [formParty] calls nothing, and the worker's section around it calls no
    [notify_all].  That section never turns a false wait condition true. *)
Theorem broadcasts_on_add_not_on_withdraw
  (s : DungeonManager) (tanks healers dps instance_id dungeon_time : Z) :
  (count_notify (log (addPlayersToQueue tanks healers dps) s) = 1%nat /\
   last (log (addPlayersToQueue tanks healers dps) s) = Some EvNotifyAll) /\
  count_notify (log request_shutdown s) = 1%nat /\
  count_notify (log (dungeonInstance_complete instance_id dungeon_time) s)
    = 1%nat /\
  log formParty s = [] /\
  count_notify (log (dungeonInstance_enter instance_id) s) = 0%nat /\
  (wait_pred s = false ->
   wait_pred (exec (dungeonInstance_enter instance_id) s) = false).
Proof.
  repeat split.
  - unfold log. destruct (canFormParty s) eqn:Hcan.
    + now rewrite dungeonInstance_enter_form.
    + destruct (shutdown s) eqn:Hsh.
      * now rewrite dungeonInstance_enter_stop.
      * now rewrite dungeonInstance_enter_idle.
  - unfold wait_pred. intros Hw.
    apply orb_false_iff in Hw as [Hcan Hsh].
    unfold exec. rewrite dungeonInstance_enter_idle by assumption.
    cbn. now rewrite Hcan, Hsh.
Qed.

Lemma broadcasts_on_add_not_on_withdraw_witness :
  wait_pred (exec (dungeonInstance_enter 0) (DungeonManager_new 2 1 0 3))
    = false.
Proof.
  apply (broadcasts_on_add_not_on_withdraw (DungeonManager_new 2 1 0 3)
           0 0 0 0 0).
  reflexivity.
Defined.

(** ** The shared generator *)

(** C9 does not hold of the code.  With two instances and two parties in
    the pool, after each worker has formed its party both are unlocked and
    about to call [time_dist(gen)] on the one [gen] of the object; the draw
    of a worker happens while it holds no lock, and so do the draws of the
    producer. *)
Theorem shared_gen_drawn_without_lock :
  sys_run [(0%nat, 3); (1%nat, 3)] (spawn (DungeonManager_new 2 2 2 6))
    = Some (mkSystem
              (mkDungeonManager 0 0 0 2 [true; true] [1; 1] [0; 0] 2 0 false)
              [BUSY None; BUSY None]) /\
  (forall instance_id draw s,
     exists s' l,
       worker_step instance_id draw (BUSY None) s
         = Some (BUSY (Some draw), s', l) /\
       gen_unlocked false l = true) /\
  (forall interval_ms tk s,
     gen_unlocked false (log (producer_tick interval_ms tk) s) = true).
Proof.
  split; [reflexivity|]. split.
  - intros instance_id draw s. eexists. eexists.
    split; reflexivity.
  - intros interval_ms tk s. unfold producer_tick.
    now rewrite bind_log.
Qed.

(** ** The producer loop *)

Lemma emit_n_eq n e s : emit_n n e s = (tt, s, replicate n e).
Proof.
  induction n as [|n IH]; [reflexivity|].
  cbn. unfold bind, emit. now rewrite IH.
Qed.

Lemma producer_tick_eq interval_ms tk s :
  producer_tick interval_ms tk s =
  let '(tanks, healers, dps) := draw_roles tk in
  (tt, exec (addPlayersToQueue tanks healers dps) s,
   EvGen :: replicate (Z.to_nat (players_to_add tk)) EvGen ++
   [EvLock; EvPrint (MsgAdded tanks healers dps); EvNotifyAll; EvUnlock;
    EvSleep interval_ms]).
Proof.
  unfold producer_tick. destruct (draw_roles tk) as [[tanks healers] dps].
  unfold bind at 1 2. unfold emit at 1. rewrite emit_n_eq. reflexivity.
Qed.

Lemma adds_of_app l1 l2 : adds_of (l1 ++ l2) = adds_of l1 ++ adds_of l2.
Proof.
  induction l1 as [|e l1 IH]; [reflexivity|].
  destruct e as [| | |[]| |]; cbn; now rewrite IH.
Qed.

Lemma adds_of_gens n : adds_of (replicate n EvGen) = [].
Proof. induction n as [|n IH]; [reflexivity|]. exact IH. Qed.

Lemma producer_tick_adds interval_ms tk s :
  adds_of (log (producer_tick interval_ms tk) s) = [draw_roles tk].
Proof.
  unfold log. rewrite producer_tick_eq.
  destruct (draw_roles tk) as [[tanks healers] dps]. cbn [snd adds_of].
  now rewrite adds_of_app, adds_of_gens.
Qed.

Lemma producer_tick_shutdown interval_ms tk b s :
  producer_tick interval_ms tk (set_shutdown b s) =
  (tt, set_shutdown b (exec (producer_tick interval_ms tk) s),
   log (producer_tick interval_ms tk) s).
Proof.
  unfold exec, log. rewrite !producer_tick_eq.
  now destruct (draw_roles tk) as [[tanks healers] dps].
Qed.

Lemma assign_role_fold rs : forall tanks healers dps,
  Forall (fun r => 0 <= r <= 2) rs ->
  0 <= tanks -> 0 <= healers -> 0 <= dps ->
  tanks + healers + dps + Z.of_nat (length rs) <= INT_MAX ->
  nonneg3 (fold_left assign_role rs (tanks, healers, dps)) /\
  total3 (fold_left assign_role rs (tanks, healers, dps))
    = tanks + healers + dps + Z.of_nat (length rs).
Proof.
  induction rs as [|r rs IH]; intros tanks healers dps Hrs Ht Hh Hd Hmax.
  - cbn. split; [auto | lia].
  - inversion Hrs as [|? ? Hr Hrs']; subst.
    cbn [fold_left length] in *. unfold assign_role at 2 4.
    unfold INT_MAX in Hmax.
    destruct (r =? 0) eqn:E0; [|destruct (r =? 1) eqn:E1;
                                 [|destruct (r =? 2) eqn:E2]].
    + rewrite wrap_small by (int_bounds; lia).
      destruct (IH (tanks + 1) healers dps) as [Hn Hs];
        auto; unfold INT_MAX; try lia.
      split; [exact Hn | rewrite Hs; lia].
    + rewrite wrap_small by (int_bounds; lia).
      destruct (IH tanks (healers + 1) dps) as [Hn Hs];
        auto; unfold INT_MAX; try lia.
      split; [exact Hn | rewrite Hs; lia].
    + rewrite wrap_small by (int_bounds; lia).
      destruct (IH tanks healers (dps + 1)) as [Hn Hs];
        auto; unfold INT_MAX; try lia.
      split; [exact Hn | rewrite Hs; lia].
    + apply Z.eqb_neq in E0, E1, E2. lia.
Qed.

Lemma draw_roles_total tk :
  draws_in_range tk ->
  nonneg3 (draw_roles tk) /\ total3 (draw_roles tk) = players_to_add tk.
Proof.
  intros [Hcount Hrole]. unfold draw_roles.
  destruct (assign_role_fold
              (map (role tk) (seq 0 (Z.to_nat (players_to_add tk)))) 0 0 0)
    as [Hn Hs]; try lia.
  - apply Forall_forall. intros r Hin.
    apply list_elem_of_In, in_map_iff in Hin as (i & <- & _). apply Hrole.
  - rewrite length_map, length_seq. unfold INT_MAX. lia.
  - split; [exact Hn|]. rewrite Hs, length_map, length_seq. lia.
Qed.

Lemma playerProducer_cons interval_ms max_runtime_seconds tk rest :
  playerProducer interval_ms max_runtime_seconds (tk :: rest) =
  if max_runtime_seconds <=? elapsed tk then
    bind (emit (EvPrint MsgProducerStop)) (fun _ => ret FINISHED)
  else
    bind (producer_tick interval_ms tk)
      (fun _ => playerProducer interval_ms max_runtime_seconds rest).
Proof. reflexivity. Qed.

Lemma playerProducer_finished interval_ms max_runtime_seconds ticks :
  forall s,
    value (playerProducer interval_ms max_runtime_seconds ticks) s = FINISHED
    <-> Exists (fun tk => max_runtime_seconds <= elapsed tk) ticks.
Proof.
  induction ticks as [|tk rest IH]; intros s.
  - cbn. split; [discriminate | intros H; inversion H].
  - rewrite playerProducer_cons.
    destruct (max_runtime_seconds <=? elapsed tk) eqn:E.
    + apply Z.leb_le in E. split; [intros _ | reflexivity].
      now apply Exists_cons_hd.
    + apply Z.leb_gt in E. rewrite bind_value, IH. split.
      * intros H. now apply Exists_cons_tl.
      * intros H. inversion H; subst; [lia | assumption].
Qed.

Lemma playerProducer_shutdown interval_ms max_runtime_seconds ticks b :
  forall s,
    playerProducer interval_ms max_runtime_seconds ticks (set_shutdown b s) =
    (value (playerProducer interval_ms max_runtime_seconds ticks) s,
     set_shutdown b
       (exec (playerProducer interval_ms max_runtime_seconds ticks) s),
     log (playerProducer interval_ms max_runtime_seconds ticks) s).
Proof.
  induction ticks as [|tk rest IH]; intros s; [reflexivity|].
  rewrite playerProducer_cons.
  destruct (max_runtime_seconds <=? elapsed tk); [reflexivity|].
  rewrite bind_value, bind_exec, bind_log.
  unfold bind at 1. rewrite producer_tick_shutdown, IH.
  reflexivity.
Qed.

Lemma playerProducer_adds interval_ms max_runtime_seconds ticks :
  forall s,
    adds_of (log (playerProducer interval_ms max_runtime_seconds ticks) s)
    = map draw_roles (live_ticks max_runtime_seconds ticks).
Proof.
  induction ticks as [|tk rest IH]; intros s; [reflexivity|].
  rewrite playerProducer_cons. cbn [live_ticks].
  destruct (max_runtime_seconds <=? elapsed tk); [reflexivity|].
  rewrite bind_log, adds_of_app, producer_tick_adds, IH. reflexivity.
Qed.

Lemma producer_tick_exec interval_ms tk s :
  exec (producer_tick interval_ms tk) s =
  let '(tanks, healers, dps) := draw_roles tk in
  exec (addPlayersToQueue tanks healers dps) s.
Proof.
  unfold exec at 1. rewrite producer_tick_eq.
  now destruct (draw_roles tk) as [[tanks healers] dps].
Qed.

Lemma producer_tick_totals interval_ms tk k s :
  draws_in_range tk -> room (k + 1) s -> 0 <= k ->
  room k (exec (producer_tick interval_ms tk) s) /\
  total_players_added (exec (producer_tick interval_ms tk) s)
    = total_players_added s + players_to_add tk /\
  tank_queue (exec (producer_tick interval_ms tk) s)
  + healer_queue (exec (producer_tick interval_ms tk) s)
  + dps_queue (exec (producer_tick interval_ms tk) s)
    = tank_queue s + healer_queue s + dps_queue s + players_to_add tk /\
  total_parties_formed (exec (producer_tick interval_ms tk) s)
    = total_parties_formed s.
Proof.
  intros Hrange ((Ht0 & Ht) & (Hh0 & Hh) & (Hd0 & Hd) & (Ha0 & Ha)) Hk.
  destruct (draw_roles_total tk Hrange) as [Hnn Htot].
  destruct Hrange as [Hcount _].
  rewrite producer_tick_exec.
  destruct (draw_roles tk) as [[tanks healers] dps].
  cbn in Hnn, Htot. destruct Hnn as (Hn1 & Hn2 & Hn3).
  rewrite addPlayersToQueue_exec. unfold room. cbn.
  rewrite !wrap_add_l.
  rewrite (wrap_small (tanks + healers + dps)) by (int_bounds; lia).
  rewrite !wrap_small by (int_bounds; lia).
  unfold INT_MAX in *. lia.
Qed.

Lemma playerProducer_totals interval_ms max_runtime_seconds ticks :
  forall s,
    Forall draws_in_range (live_ticks max_runtime_seconds ticks) ->
    room (Z.of_nat (length (live_ticks max_runtime_seconds ticks))) s ->
    total_players_added
      (exec (playerProducer interval_ms max_runtime_seconds ticks) s)
      = total_players_added s + drawn (live_ticks max_runtime_seconds ticks) /\
    tank_queue (exec (playerProducer interval_ms max_runtime_seconds ticks) s)
    + healer_queue
        (exec (playerProducer interval_ms max_runtime_seconds ticks) s)
    + dps_queue (exec (playerProducer interval_ms max_runtime_seconds ticks) s)
      = tank_queue s + healer_queue s + dps_queue s
        + drawn (live_ticks max_runtime_seconds ticks) /\
    total_parties_formed
      (exec (playerProducer interval_ms max_runtime_seconds ticks) s)
      = total_parties_formed s.
Proof.
  induction ticks as [|tk rest IH]; intros s Hrange Hroom.
  - cbn. unfold drawn. cbn. lia.
  - rewrite playerProducer_cons. cbn [live_ticks] in *.
    destruct (max_runtime_seconds <=? elapsed tk).
    + cbn. unfold drawn. cbn. lia.
    + inversion Hrange as [|? ? Htk Hrest]; subst.
      cbn [length] in Hroom. rewrite Nat2Z.inj_succ in Hroom.
      rewrite bind_exec.
      destruct (producer_tick_totals interval_ms tk
                  (Z.of_nat (length (live_ticks max_runtime_seconds rest)))
                  s Htk) as (Hroom1 & Ea & Eq & Ef);
        [now rewrite <- Z.add_1_r in Hroom | lia |].
      destruct (IH _ Hrest Hroom1) as (Ea' & Eq' & Ef').
      rewrite Ea', Eq', Ef', Ea, Eq, Ef.
      unfold drawn. cbn [map sum_list]. lia.
Qed.

Lemma playerProducer_exec interval_ms max_runtime_seconds ticks :
  forall s,
    exec (playerProducer interval_ms max_runtime_seconds ticks) s
    = apply_adds (map draw_roles (live_ticks max_runtime_seconds ticks)) s.
Proof.
  induction ticks as [|tk rest IH]; intros s; [reflexivity|].
  rewrite playerProducer_cons. cbn [live_ticks].
  destruct (max_runtime_seconds <=? elapsed tk); [reflexivity|].
  rewrite bind_exec, IH, producer_tick_exec. cbn [map apply_adds].
  now destruct (draw_roles tk) as [[tanks healers] dps].
Qed.

(** C8.  [playerProducer] leaves its loop exactly when a clock reading
    reaches [max_runtime_seconds]; it runs the same, with the same result,
    whatever [shutdown] is, and hands the flag on untouched; every pass
    before that calls [addPlayersToQueue] once, so that the object it
    leaves is the one those calls produce, in order; and when [count_dist]
    and [role_dist] keep to their ranges the three arguments of each call
    are not negative and add up to the number drawn, between 1 and 3, and
    the queues together grow by the players drawn as long as the counters
    have room for them. *)
Theorem producer_runs_until_budget
  (interval_ms max_runtime_seconds : Z) (ticks : list tick)
  (s : DungeonManager) :
  (value (playerProducer interval_ms max_runtime_seconds ticks) s = FINISHED
   <-> Exists (fun tk => max_runtime_seconds <= elapsed tk) ticks) /\
  (forall b,
     playerProducer interval_ms max_runtime_seconds ticks (set_shutdown b s) =
     (value (playerProducer interval_ms max_runtime_seconds ticks) s,
      set_shutdown b
        (exec (playerProducer interval_ms max_runtime_seconds ticks) s),
      log (playerProducer interval_ms max_runtime_seconds ticks) s)) /\
  length (adds_of (log (playerProducer interval_ms max_runtime_seconds ticks) s))
    = length (live_ticks max_runtime_seconds ticks) /\
  exec (playerProducer interval_ms max_runtime_seconds ticks) s
    = apply_adds
        (adds_of (log (playerProducer interval_ms max_runtime_seconds ticks) s))
        s /\
  adds_of (log (playerProducer interval_ms max_runtime_seconds ticks) s)
    = map draw_roles (live_ticks max_runtime_seconds ticks) /\
  (Forall draws_in_range (live_ticks max_runtime_seconds ticks) ->
   map total3
     (adds_of (log (playerProducer interval_ms max_runtime_seconds ticks) s))
     = map players_to_add (live_ticks max_runtime_seconds ticks) /\
   Forall (fun a => nonneg3 a /\ 1 <= total3 a <= 3)
     (adds_of (log (playerProducer interval_ms max_runtime_seconds ticks) s)) /\
   (room (Z.of_nat (length (live_ticks max_runtime_seconds ticks))) s ->
    tank_queue (exec (playerProducer interval_ms max_runtime_seconds ticks) s)
    + healer_queue
        (exec (playerProducer interval_ms max_runtime_seconds ticks) s)
    + dps_queue (exec (playerProducer interval_ms max_runtime_seconds ticks) s)
      = tank_queue s + healer_queue s + dps_queue s
        + drawn (live_ticks max_runtime_seconds ticks))).
Proof.
  split; [apply playerProducer_finished|].
  split; [intros b; apply playerProducer_shutdown|].
  rewrite playerProducer_adds. split; [apply length_map|].
  split; [apply playerProducer_exec|]. split; [reflexivity|].
  intros Hrange.
  assert (Hsums :
    map total3 (map draw_roles (live_ticks max_runtime_seconds ticks))
      = map players_to_add (live_ticks max_runtime_seconds ticks) /\
    Forall (fun a => nonneg3 a /\ 1 <= total3 a <= 3)
      (map draw_roles (live_ticks max_runtime_seconds ticks))).
  { induction (live_ticks max_runtime_seconds ticks) as [|tk live IH].
    - split; constructor.
    - inversion Hrange as [|? ? Htk Hlive]; subst.
      destruct (IH Hlive) as [IHsum IHall].
      destruct (draw_roles_total tk Htk) as [Hn Hs].
      cbn [map]. split.
      + now rewrite Hs, IHsum.
      + constructor; [|exact IHall].
        split; [exact Hn|]. rewrite Hs. apply Htk. }
  destruct Hsums as [Hsum Hall].
  split; [exact Hsum|]. split; [exact Hall|].
  intros Hroom.
  now destruct (playerProducer_totals interval_ms max_runtime_seconds ticks
                  s Hrange Hroom) as (_ & Hq & _).
Qed.

Lemma producer_runs_until_budget_witness :
  adds_of
    (log (playerProducer 3000 30 sample_ticks) (DungeonManager_new 2 0 0 0))
    = [(0, 0, 1); (1, 1, 1)] /\
  exec (playerProducer 3000 30 sample_ticks) (DungeonManager_new 2 0 0 0)
    = mkDungeonManager 1 1 2 2 [false; false] [0; 0] [0; 0] 0 4 false /\
  Forall (fun a => nonneg3 a /\ 1 <= total3 a <= 3)
    (adds_of
       (log (playerProducer 3000 30 sample_ticks) (DungeonManager_new 2 0 0 0))) /\
  tank_queue
    (exec (playerProducer 3000 30 sample_ticks) (DungeonManager_new 2 0 0 0))
  + healer_queue
      (exec (playerProducer 3000 30 sample_ticks) (DungeonManager_new 2 0 0 0))
  + dps_queue
      (exec (playerProducer 3000 30 sample_ticks) (DungeonManager_new 2 0 0 0))
    = 0 + 0 + 0 + drawn (live_ticks 30 sample_ticks).
Proof.
  split; [reflexivity|]. split; [reflexivity|].
  assert (Hrange : Forall draws_in_range (live_ticks 30 sample_ticks)).
  { repeat constructor; cbn; try lia;
      pose proof (Nat.mod_upper_bound i 3); lia. }
  destruct (proj2 (proj2 (proj2 (proj2 (proj2
              (producer_runs_until_budget 3000 30 sample_ticks
                 (DungeonManager_new 2 0 0 0)))))) Hrange)
    as (_ & Hall & Hqueues).
  split; [exact Hall|].
  apply Hqueues. unfold room, INT_MAX. cbn. lia.
Defined.

(** * Further properties of the code *)

(** ** Reading the configuration *)

Lemma isdigit_not_space c : isdigit c = true -> isspace c = false.
Proof.
  unfold isdigit, isspace. intros H.
  apply andb_true_iff in H as [H1 H2]. apply Nat.leb_le in H1, H2.
  apply orb_false_iff. split.
  - apply Nat.eqb_neq. lia.
  - apply andb_false_iff. right. apply Nat.leb_gt. lia.
Qed.

Lemma isspace_not_digit c : isspace c = true -> isdigit c = false.
Proof.
  intros H. destruct (isdigit c) eqn:E; [|reflexivity].
  apply isdigit_not_space in E. congruence.
Qed.

Lemma digit_value_range c : isdigit c = true -> 0 <= digit_value c <= 9.
Proof.
  unfold isdigit, digit_value. intros H.
  apply andb_true_iff in H as [H1 H2]. apply Nat.leb_le in H1, H2. lia.
Qed.

Lemma scan_input_spec input : forall foundDigit,
  scan_input input foundDigit = true <->
  Forall digit_or_space input /\
  (foundDigit = true \/ Exists is_digit input).
Proof.
  induction input as [|c rest IH]; intros foundDigit; cbn [scan_input].
  - split.
    + intros ->. split; [constructor | now left].
    + intros [_ [H|H]]; [exact H | inversion H].
  - destruct (isdigit c) eqn:Ed.
    + rewrite IH. split.
      * intros [Hall _]. split.
        -- constructor; [now left | exact Hall].
        -- right. now apply Exists_cons_hd.
      * intros [Hall _]. inversion Hall; subst. split; [assumption | now left].
    + destruct (isspace c) eqn:Es; cbn [negb].
      * rewrite IH. split.
        -- intros [Hall Hex]. split.
           ++ constructor; [now right | exact Hall].
           ++ destruct Hex as [Hex|Hex]; [now left|].
              right. now apply Exists_cons_tl.
        -- intros [Hall Hex]. inversion Hall; subst. split; [assumption|].
           destruct Hex as [Hex|Hex]; [now left|].
           inversion Hex; subst; [|now right].
           unfold is_digit in *. congruence.
      * split; [discriminate|].
        intros [Hall _]. inversion Hall as [|? ? [Hc|Hc] ?]; subst;
          unfold is_digit, is_space in Hc; congruence.
Qed.

Lemma valid_input_spec (input : list ascii) :
  isValidIntegerInput input = true <->
  Forall digit_or_space input /\ Exists is_digit input.
Proof.
  destruct input as [|c rest].
  - cbn. split; [discriminate | intros [_ H]; inversion H].
  - unfold isValidIntegerInput. rewrite scan_input_spec. split.
    + intros [Hall [H|H]]; [discriminate | now split].
    + intros [Hall H]. split; [exact Hall | now right].
Qed.

(** X1.  [isValidIntegerInput] accepts a line exactly when every character
    is a digit or white space and at least one is a digit; the empty line
    and a line of blanks are refused. *)
Theorem isValidIntegerInput_iff (input : list ascii) :
  isValidIntegerInput input = true <->
  Forall digit_or_space input /\ Exists is_digit input.
Proof. exact (valid_input_spec input). Qed.

Lemma read_digits_nonneg input : forall acc,
  0 <= acc -> 0 <= fst (read_digits input acc).
Proof.
  induction input as [|c rest IH]; intros acc Hacc; cbn [read_digits].
  - exact Hacc.
  - destruct (isdigit c) eqn:Ed; [|exact Hacc].
    apply IH. pose proof (digit_value_range c Ed). lia.
Qed.

Lemma extract_int_range input v after :
  extract_int input = (Some v, after) -> 0 <= v <= INT_MAX.
Proof.
  unfold extract_int. destruct (skip_ws input) as [|c rest]; [discriminate|].
  destruct (isdigit c); [|discriminate].
  pose proof (read_digits_nonneg (c :: rest) 0 ltac:(lia)) as Hnn.
  destruct (read_digits (c :: rest) 0) as [v' after'].
  destruct (v' <=? INT_MAX) eqn:E; [|discriminate].
  intros [= <- <-]. apply Z.leb_le in E. cbn in Hnn. lia.
Qed.

Lemma check_line_accepts positiveOnly input v :
  check_line positiveOnly input = inl v ->
  0 <= v <= INT_MAX /\ (positiveOnly = true -> 1 <= v).
Proof.
  unfold check_line.
  destruct (isValidIntegerInput input); cbn [negb]; [|discriminate].
  destruct (extract_int input) as [[value|] after] eqn:E; [|discriminate].
  apply extract_int_range in E.
  destruct (extract_word after); [discriminate|].
  destruct (positiveOnly && (value <=? 0)) eqn:E1; [discriminate|].
  destruct (negb positiveOnly && (value <? 0)) eqn:E2; [discriminate|].
  intros [= <-]. split; [exact E|].
  intros ->. cbn in E1. apply Z.leb_gt in E1. lia.
Qed.

Lemma check_line_never_negative positiveOnly input :
  check_line positiveOnly input <> inr Negative.
Proof.
  unfold check_line.
  destruct (isValidIntegerInput input); cbn [negb]; [|discriminate].
  destruct (extract_int input) as [[value|] after] eqn:E; [|discriminate].
  apply extract_int_range in E.
  destruct (extract_word after); [discriminate|].
  destruct (positiveOnly && (value <=? 0)); [discriminate|].
  destruct (negb positiveOnly && (value <? 0)) eqn:E2; [|discriminate].
  apply andb_true_iff in E2 as [_ E2]. apply Z.ltb_lt in E2. lia.
Qed.

Lemma getValidatedInteger_sound (positiveOnly : bool)
  (lines : list (list ascii)) (value : Z) (rest : list (list ascii))
  (said : list complaint) :
  getValidatedInteger positiveOnly lines = Some (value, rest, said) ->
  0 <= value <= INT_MAX /\
  (positiveOnly = true -> 1 <= value) /\
  ~ In Negative said.
Proof.
  revert value rest said.
  induction lines as [|input lines IH]; intros value rest said;
    cbn [getValidatedInteger]; [discriminate|].
  destruct (check_line positiveOnly input) as [v|why] eqn:E.
  - intros [= <- <- <-]. apply check_line_accepts in E.
    split; [apply E|]. split; [apply E|]. intros [].
  - destruct (getValidatedInteger positiveOnly lines)
      as [[[v rest'] said']|]; [|discriminate].
    intros [= <- <- <-].
    destruct (IH v rest' said' eq_refl) as (Hr & Hp & Hn).
    split; [exact Hr|]. split; [exact Hp|].
    intros [Hhd|Htl]; [|now apply Hn].
    subst why. now apply check_line_never_negative in E.
Qed.

(** X2.  Whatever lines it is fed, [getValidatedInteger] returns only an
    [int] that is not negative, and at least 1 when [positiveOnly] is set;
    and its complaint about a negative number is never printed, since no
    line with a minus sign gets as far as that test. *)
Theorem getValidatedInteger_range (positiveOnly : bool)
  (lines : list (list ascii)) (value : Z) (rest : list (list ascii))
  (said : list complaint) :
  getValidatedInteger positiveOnly lines = Some (value, rest, said) ->
  0 <= value <= INT_MAX /\
  (positiveOnly = true -> 1 <= value) /\
  ~ In Negative said.
Proof. exact (getValidatedInteger_sound positiveOnly lines value rest said). Qed.

Lemma getValidatedInteger_range_witness :
  0 <= 3 <= INT_MAX /\ (true = true -> 1 <= 3) /\
  ~ In Negative [NotAnInteger; NotPositive].
Proof.
  apply (getValidatedInteger_range true
           [line "-4"; line "0"; line "3"; line "9"] 3 [line "9"]
           [NotAnInteger; NotPositive]).
  reflexivity.
Defined.

Lemma check_line_range_accepts minValue input v :
  check_line_range minValue input = inl v ->
  0 <= v <= INT_MAX /\ minValue <= v.
Proof.
  unfold check_line_range.
  destruct (isValidIntegerInput input); cbn [negb]; [|discriminate].
  destruct (extract_int input) as [[value|] after] eqn:E; [|discriminate].
  apply extract_int_range in E.
  destruct (extract_word after); [discriminate|].
  destruct (value <? minValue) eqn:E1; [discriminate|].
  intros [= <-]. apply Z.ltb_ge in E1. split; [exact E | exact E1].
Qed.

Lemma getValidatedIntegerWithRange_sound (minValue : Z)
  (lines : list (list ascii)) (value : Z) (rest : list (list ascii))
  (said : list complaint) :
  getValidatedIntegerWithRange minValue lines = Some (value, rest, said) ->
  0 <= value <= INT_MAX /\ minValue <= value.
Proof.
  revert value rest said.
  induction lines as [|input lines IH]; intros value rest said;
    cbn [getValidatedIntegerWithRange]; [discriminate|].
  destruct (check_line_range minValue input) as [v|why] eqn:E.
  - intros [= <- <- <-]. now apply check_line_range_accepts in E.
  - destruct (getValidatedIntegerWithRange minValue lines)
      as [[[v rest'] said']|]; [|discriminate].
    intros [= <- <- <-]. exact (IH v rest' said' eq_refl).
Qed.

(** X3.  [getValidatedIntegerWithRange] returns only an [int] that is not
    negative and not below [minValue]. *)
Theorem getValidatedIntegerWithRange_range (minValue : Z)
  (lines : list (list ascii)) (value : Z) (rest : list (list ascii))
  (said : list complaint) :
  getValidatedIntegerWithRange minValue lines = Some (value, rest, said) ->
  0 <= value <= INT_MAX /\ minValue <= value.
Proof. exact (getValidatedIntegerWithRange_sound minValue lines value rest said). Qed.

Lemma getValidatedIntegerWithRange_range_witness :
  0 <= 6 <= INT_MAX /\ 5 <= 6.
Proof.
  apply (getValidatedIntegerWithRange_range 5
           [line "4"; line "6"] 6 [] [BelowMinimum 5]).
  reflexivity.
Defined.

(** X4.  A line holding one character that is neither a digit nor white
    space (a minus sign, a letter, a decimal point) is refused as not an
    integer by both reading loops, wherever the character stands; so no
    negative number can be entered. *)
Theorem line_with_other_character_refused
  (input : list ascii) (c : ascii) (positiveOnly : bool) (minValue : Z) :
  In c input -> isdigit c = false -> isspace c = false ->
  check_line positiveOnly input = inr NotAnInteger /\
  check_line_range minValue input = inr NotAnInteger.
Proof.
  intros Hin Hd Hs.
  assert (Hbad : isValidIntegerInput input = false).
  { destruct (isValidIntegerInput input) eqn:E; [|reflexivity].
    apply valid_input_spec in E as [Hall _].
    rewrite Forall_forall in Hall. apply list_elem_of_In in Hin.
    destruct (Hall c Hin) as [H|H]; unfold is_digit, is_space in H;
      congruence. }
  unfold check_line, check_line_range. now rewrite Hbad.
Qed.

Lemma line_with_other_character_refused_witness :
  check_line false (line "-5") = inr NotAnInteger /\
  check_line_range 0 (line "-5") = inr NotAnInteger.
Proof.
  apply (line_with_other_character_refused (line "-5") "-"%char false 0).
  - left. reflexivity.
  - reflexivity.
  - reflexivity.
Defined.

Lemma skip_ws_spaces pad rest :
  Forall is_space pad -> skip_ws (pad ++ rest) = skip_ws rest.
Proof.
  induction 1 as [|c pad Hc _ IH]; [reflexivity|].
  cbn. unfold is_space in Hc. now rewrite Hc.
Qed.

Lemma skip_ws_all_spaces pad : Forall is_space pad -> skip_ws pad = [].
Proof.
  intros H. rewrite <- (app_nil_r pad). now rewrite skip_ws_spaces.
Qed.

Lemma read_digits_run digits : forall rest acc,
  Forall is_digit digits ->
  read_digits (digits ++ rest) acc =
  read_digits rest
    (fold_left (fun a c => 10 * a + digit_value c) digits acc).
Proof.
  induction digits as [|c digits IH]; intros rest acc Hd; [reflexivity|].
  inversion Hd as [|? ? Hc Hrest]; subst.
  cbn. unfold is_digit in Hc. rewrite Hc. now apply IH.
Qed.

Lemma read_digits_at_space pad acc :
  Forall is_space pad -> read_digits pad acc = (acc, pad).
Proof.
  destruct 1 as [|c pad Hc _]; [reflexivity|].
  cbn. now rewrite (isspace_not_digit c Hc).
Qed.

Lemma extract_int_padded pad1 digits pad2 :
  Forall is_space pad1 -> Forall is_space pad2 ->
  digits <> [] -> Forall is_digit digits ->
  extract_int (pad1 ++ digits ++ pad2) =
  if decimal digits <=? INT_MAX then (Some (decimal digits), pad2)
  else (None, pad2).
Proof.
  intros H1 H2 Hne Hd. unfold extract_int.
  rewrite skip_ws_spaces by assumption.
  destruct digits as [|c digits]; [congruence|].
  inversion Hd as [|? ? Hc Hrest]; subst.
  change ((c :: digits) ++ pad2) with (c :: (digits ++ pad2)).
  cbn [skip_ws]. rewrite (isdigit_not_space c Hc). rewrite Hc.
  change (c :: (digits ++ pad2)) with ((c :: digits) ++ pad2).
  rewrite read_digits_run by assumption.
  rewrite read_digits_at_space by assumption.
  reflexivity.
Qed.

(** X5.  A line made of a run of digits, with white space before and after
    at will, is read as the number its digits denote in base ten (leading
    zeros allowed): it is accepted when that number fits an [int] (and is
    not 0 under [positiveOnly]), refused as unparsable when it does not
    fit. *)
Theorem padded_number_read (pad1 digits pad2 : list ascii)
  (positiveOnly : bool) :
  Forall is_space pad1 -> Forall is_space pad2 ->
  digits <> [] -> Forall is_digit digits ->
  check_line positiveOnly (pad1 ++ digits ++ pad2) =
  if INT_MAX <? decimal digits then inr NotParsed
  else if positiveOnly && (decimal digits <=? 0) then inr NotPositive
  else inl (decimal digits).
Proof.
  intros H1 H2 Hne Hd. unfold check_line.
  assert (Hvalid : isValidIntegerInput (pad1 ++ digits ++ pad2) = true).
  { apply valid_input_spec. split.
    - rewrite !Forall_app. repeat split.
      + eapply Forall_impl; [exact H1 | intros c Hc; now right].
      + eapply Forall_impl; [exact Hd | intros c Hc; now left].
      + eapply Forall_impl; [exact H2 | intros c Hc; now right].
    - apply Exists_app. right. apply Exists_app. left.
      destruct digits as [|c digits]; [congruence|].
      inversion Hd; subst. now apply Exists_cons_hd. }
  rewrite Hvalid. cbn [negb].
  rewrite extract_int_padded by assumption.
  assert (Hnn : 0 <= decimal digits).
  { unfold decimal.
    pose proof (read_digits_nonneg (digits ++ []) 0 ltac:(lia)) as Hn.
    rewrite read_digits_run in Hn by assumption. exact Hn. }
  destruct (decimal digits <=? INT_MAX) eqn:E.
  - apply Z.leb_le in E.
    destruct (INT_MAX <? decimal digits) eqn:E'; [apply Z.ltb_lt in E'; lia|].
    unfold extract_word. rewrite skip_ws_all_spaces by assumption.
    destruct (positiveOnly && (decimal digits <=? 0)); [reflexivity|].
    destruct (negb positiveOnly && (decimal digits <? 0)) eqn:E2;
      [|reflexivity].
    apply andb_true_iff in E2 as [_ E2]. apply Z.ltb_lt in E2. lia.
  - apply Z.leb_gt in E.
    destruct (INT_MAX <? decimal digits) eqn:E'; [reflexivity|].
    apply Z.ltb_ge in E'. lia.
Qed.

Lemma padded_number_read_witness :
  check_line true (line "  " ++ line "0042" ++ line " ") = inl 42.
Proof.
  apply (padded_number_read (line "  ") (line "0042") (line " ") true).
  - repeat constructor.
  - repeat constructor.
  - discriminate.
  - repeat constructor.
Defined.

Lemma forallb_is_int_zeros n : forallb is_int (replicate n 0) = true.
Proof. induction n as [|n IH]; [reflexivity|]. exact IH. Qed.

Lemma DungeonManager_new_wf n t h d :
  in_int t -> in_int h -> in_int d ->
  wf (DungeonManager_new n t h d) = true.
Proof.
  intros Ht Hh Hd. unfold wf. cbn.
  rewrite !forallb_is_int_zeros.
  apply is_int_spec in Ht, Hh, Hd. now rewrite Ht, Hh, Hd.
Qed.

(** X6.  Whenever [main] gets its six values, they are [int]s with
    [n >= 1], [t, h, d >= 0] and [0 <= t1 <= t2]; the object it builds from
    them has every member within [int] and no negative queue. *)
Theorem read_config_valid (lines : list (list ascii)) (cfg : config) :
  read_config lines = Some cfg ->
  (1 <= cfg_n cfg <= INT_MAX /\
   0 <= cfg_t cfg <= INT_MAX /\
   0 <= cfg_h cfg <= INT_MAX /\
   0 <= cfg_d cfg <= INT_MAX /\
   0 <= cfg_t1 cfg /\ cfg_t1 cfg <= cfg_t2 cfg /\ cfg_t2 cfg <= INT_MAX) /\
  wf (DungeonManager_new (cfg_n cfg) (cfg_t cfg) (cfg_h cfg) (cfg_d cfg))
    = true /\
  pool_nonneg
    (DungeonManager_new (cfg_n cfg) (cfg_t cfg) (cfg_h cfg) (cfg_d cfg))
    = true.
Proof.
  unfold read_config.
  destruct (getValidatedInteger true lines)
    as [[[n l1] s1]|] eqn:En; [|discriminate].
  destruct (getValidatedInteger false l1)
    as [[[t l2] s2]|] eqn:Et; [|discriminate].
  destruct (getValidatedInteger false l2)
    as [[[h l3] s3]|] eqn:Eh; [|discriminate].
  destruct (getValidatedInteger false l3)
    as [[[d l4] s4]|] eqn:Ed; [|discriminate].
  destruct (getValidatedInteger false l4)
    as [[[t1 l5] s5]|] eqn:E1; [|discriminate].
  destruct (getValidatedIntegerWithRange t1 l5)
    as [[[t2 l6] s6]|] eqn:E2; [|discriminate].
  intros [= <-]. cbn [cfg_n cfg_t cfg_h cfg_d cfg_t1 cfg_t2].
  apply getValidatedInteger_sound in En as (Hn & Hn1 & _).
  apply getValidatedInteger_sound in Et as (Ht & _).
  apply getValidatedInteger_sound in Eh as (Hh & _).
  apply getValidatedInteger_sound in Ed as (Hd & _).
  apply getValidatedInteger_sound in E1 as (H1 & _).
  apply getValidatedIntegerWithRange_sound in E2 as (H2 & H12).
  specialize (Hn1 eq_refl).
  split; [lia|]. split.
  - apply DungeonManager_new_wf; int_bounds; lia.
  - unfold pool_nonneg. cbn. rewrite !andb_true_iff, !Z.leb_le. lia.
Qed.

Lemma read_config_valid_witness :
  wf (DungeonManager_new 2 1 1 3) = true /\
  pool_nonneg (DungeonManager_new 2 1 1 3) = true.
Proof.
  apply (read_config_valid
           [line "2"; line "1"; line "x"; line "1"; line "3"; line "5";
            line "4"; line "6"]
           (mkConfig 2 1 1 3 5 6)).
  reflexivity.
Defined.

(** ** The system as a whole *)

Lemma spawn_inv n t h d : sys_inv (spawn (DungeonManager_new n t h d)).
Proof.
  constructor; cbn.
  - apply length_replicate.
  - now rewrite fmap_replicate.
  - now rewrite !length_replicate.
  - now rewrite !length_replicate.
  - intros i Hi. apply lookup_replicate in Hi as [Hi _]. discriminate.
Qed.

Lemma sys_step_inv i draw sys sys' :
  sys_inv sys -> sys_step i draw sys = Some sys' -> sys_inv sys'.
Proof.
  intros [Hlen Hact Hserved Htime Hstop]. unfold sys_step.
  destruct (instances sys !! i) as [w|] eqn:Hw; [|discriminate].
  assert (Hi : (i < length (instances sys))%nat)
    by (eapply lookup_lt_Some; eauto).
  destruct w as [|[t|]|]; unfold worker_step.
  - unfold wait_pred.
    destruct (canFormParty (manager sys)) eqn:Hcan; cbn [orb].
    + rewrite dungeonInstance_enter_form by assumption.
      intros [= <-]. rewrite formParty_exec, Nat2Z.id.
      constructor; cbn.
      * now rewrite length_insert.
      * now rewrite list_fmap_insert, Hact.
      * now rewrite length_alter, length_insert.
      * now rewrite length_insert.
      * intros j Hj. destruct (decide (i = j)) as [->|Hne].
        -- rewrite list_lookup_insert_eq in Hj by assumption. discriminate.
        -- rewrite list_lookup_insert_ne in Hj by assumption. eauto.
    + destruct (shutdown (manager sys)) eqn:Hsh; [|discriminate].
      rewrite dungeonInstance_enter_stop by assumption.
      intros [= <-]. constructor; cbn.
      * now rewrite length_insert.
      * rewrite list_fmap_insert. cbn.
        rewrite Hact. symmetry. apply list_insert_id.
        now rewrite list_lookup_fmap, Hw.
      * now rewrite length_insert.
      * now rewrite length_insert.
      * intros _ _. exact Hsh.
  - rewrite dungeonInstance_complete_eq. intros [= <-].
    rewrite Nat2Z.id. constructor; cbn.
    + now rewrite length_insert.
    + now rewrite list_fmap_insert, Hact.
    + now rewrite length_insert.
    + now rewrite length_alter, length_insert.
    + intros j Hj. destruct (decide (i = j)) as [->|Hne].
      * rewrite list_lookup_insert_eq in Hj by assumption. discriminate.
      * rewrite list_lookup_insert_ne in Hj by assumption. eauto.
  - intros [= <-]. constructor; cbn.
    + now rewrite length_insert.
    + rewrite list_fmap_insert. cbn.
      rewrite Hact. symmetry. apply list_insert_id.
      now rewrite list_lookup_fmap, Hw.
    + now rewrite length_insert.
    + now rewrite length_insert.
    + intros j Hj. destruct (decide (i = j)) as [->|Hne].
      * rewrite list_lookup_insert_eq in Hj by assumption. discriminate.
      * rewrite list_lookup_insert_ne in Hj by assumption. eauto.
  - discriminate.
Qed.

Lemma sys_act_inv a sys sys' :
  sys_inv sys -> sys_act a sys = Some sys' -> sys_inv sys'.
Proof.
  destruct a as [i draw|tanks healers dps|]; cbn [sys_act].
  - apply sys_step_inv.
  - intros [Hlen Hact Hserved Htime Hstop] [= <-].
    rewrite addPlayersToQueue_exec. constructor; cbn; auto.
  - intros [Hlen Hact Hserved Htime Hstop] [= <-].
    constructor; cbn; auto.
Qed.

Lemma sys_exec_inv acts : forall sys sys',
  sys_inv sys -> sys_exec acts sys = Some sys' -> sys_inv sys'.
Proof.
  induction acts as [|a acts IH]; intros sys sys' Hinv; cbn [sys_exec].
  - now intros [= <-].
  - destruct (sys_act a sys) as [sys1|] eqn:Ha; [|discriminate].
    apply IH. eapply sys_act_inv; eauto.
Qed.

(** The four moves a worker can make, and what each leaves behind. *)
Lemma sys_step_cases i draw sys sys' :
  sys_step i draw sys = Some sys' ->
  (instances sys !! i = Some IDLE /\
   canFormParty (manager sys) = true /\
   sys' = mkSystem
            (set_parties_served
               (alter (fun v => wrap (v + 1)) i
                  (parties_served (manager sys)))
               (set_dungeon_active
                  (<[i := true]> (dungeon_active (manager sys)))
                  (exec formParty (manager sys))))
            (<[i := BUSY None]> (instances sys))) \/
  (instances sys !! i = Some IDLE /\
   canFormParty (manager sys) = false /\
   shutdown (manager sys) = true /\
   sys' = mkSystem (manager sys) (<[i := STOPPED]> (instances sys))) \/
  (instances sys !! i = Some (BUSY None) /\
   sys' = mkSystem (manager sys) (<[i := BUSY (Some draw)]> (instances sys))) \/
  (exists t,
     instances sys !! i = Some (BUSY (Some t)) /\
     sys' = mkSystem
              (set_dungeon_active
                 (<[i := false]> (dungeon_active (manager sys)))
                 (set_total_time_served
                    (alter (fun v => wrap (v + t)) i
                       (total_time_served (manager sys)))
                    (manager sys)))
              (<[i := IDLE]> (instances sys))).
Proof.
  unfold sys_step.
  destruct (instances sys !! i) as [w|] eqn:Hw; [|discriminate].
  destruct w as [|[t|]|]; unfold worker_step.
  - unfold wait_pred.
    destruct (canFormParty (manager sys)) eqn:Hcan; cbn [orb].
    + rewrite dungeonInstance_enter_form by assumption.
      intros [= <-]. rewrite Nat2Z.id. now left.
    + destruct (shutdown (manager sys)) eqn:Hsh; [|discriminate].
      rewrite dungeonInstance_enter_stop by assumption.
      intros [= <-]. right. now left.
  - rewrite dungeonInstance_complete_eq. intros [= <-].
    rewrite Nat2Z.id. right. right. right. now exists t.
  - intros [= <-]. right. right. now left.
  - discriminate.
Qed.

Lemma sys_act_dungeon_count a sys sys' :
  sys_act a sys = Some sys' ->
  dungeon_count (manager sys') = dungeon_count (manager sys).
Proof.
  destruct a as [i draw|tanks healers dps|]; cbn [sys_act].
  - intros Hstep.
    destruct (sys_step_cases _ _ _ _ Hstep)
      as [(_ & _ & ->)|[(_ & _ & _ & ->)|[(_ & ->)|(t & _ & ->)]]];
      reflexivity.
  - now intros [= <-].
  - now intros [= <-].
Qed.

Lemma sys_exec_dungeon_count acts : forall sys sys',
  sys_exec acts sys = Some sys' ->
  dungeon_count (manager sys') = dungeon_count (manager sys).
Proof.
  induction acts as [|a acts IH]; intros sys sys'; cbn [sys_exec].
  - now intros [= <-].
  - destruct (sys_act a sys) as [sys1|] eqn:Ha; [|discriminate].
    intros Hrun. rewrite (IH _ _ Hrun). now apply sys_act_dungeon_count in Ha.
Qed.

(** X7.  From [startInstances] on, whatever the threads do and in whatever
    order, the flag [dungeon_active[i]] is set exactly while worker [i] is
    between forming a party and recording its run; and the three vectors
    keep one entry per instance. *)
Theorem active_flag_tracks_worker (n t h d : Z) (acts : list action)
  (sys : system) (i : nat) :
  sys_exec acts (spawn (DungeonManager_new n t h d)) = Some sys ->
  (dungeon_active (manager sys) !! i = Some true <->
   exists dungeon_time, instances sys !! i = Some (BUSY dungeon_time)) /\
  length (dungeon_active (manager sys)) = Z.to_nat n /\
  length (parties_served (manager sys)) = Z.to_nat n /\
  length (total_time_served (manager sys)) = Z.to_nat n /\
  length (instances sys) = Z.to_nat n /\
  dungeon_count (manager sys) = n.
Proof.
  intros Hrun.
  pose proof (sys_exec_dungeon_count _ _ _ Hrun) as Hn. cbn in Hn.
  destruct (sys_exec_inv _ _ _ (spawn_inv n t h d) Hrun)
    as [Hlen Hact Hserved Htime _].
  rewrite Hn in Hlen.
  split; [|rewrite Hact, length_fmap; repeat split; congruence].
  rewrite Hact, list_lookup_fmap. split.
  - destruct (instances sys !! i) as [[|dt|]|]; cbn; try discriminate.
    intros _. now exists dt.
  - intros [dt ->]. reflexivity.
Qed.

Lemma active_flag_tracks_worker_witness :
  dungeon_active
    (mkDungeonManager 0 0 0 2 [true; false] [1; 0] [0; 0] 1 0 false)
    !! 0%nat = Some true <->
  exists dungeon_time,
    [BUSY None; IDLE] !! 0%nat = Some (BUSY dungeon_time).
Proof.
  apply (active_flag_tracks_worker 2 1 1 3 [ActWorker 0 4]
           (mkSystem
              (mkDungeonManager 0 0 0 2 [true; false] [1; 0] [0; 0] 1 0 false)
              [BUSY None; IDLE]) 0%nat).
  reflexivity.
Defined.

Lemma sys_act_shutdown_kept a sys sys' :
  sys_act a sys = Some sys' ->
  shutdown (manager sys) = true -> shutdown (manager sys') = true.
Proof.
  destruct a as [i draw|tanks healers dps|]; cbn [sys_act].
  - intros Hstep.
    destruct (sys_step_cases _ _ _ _ Hstep)
      as [(_ & _ & ->)|[(_ & _ & _ & ->)|[(_ & ->)|(t & _ & ->)]]];
      auto.
  - now intros [= <-].
  - now intros [= <-].
Qed.

Lemma sys_act_stopped_kept a sys sys' j :
  sys_act a sys = Some sys' ->
  instances sys !! j = Some STOPPED -> instances sys' !! j = Some STOPPED.
Proof.
  destruct a as [i draw|tanks healers dps|]; cbn [sys_act].
  - intros Hstep Hj.
    assert (Hi : (j < length (instances sys))%nat)
      by (eapply lookup_lt_Some; eauto).
    destruct (sys_step_cases _ _ _ _ Hstep)
      as [(Hw & _ & ->)|[(Hw & _ & _ & ->)|[(Hw & ->)|(t & Hw & ->)]]];
      cbn [instances];
      (destruct (decide (i = j)) as [->|Hne];
       [congruence || (now rewrite list_lookup_insert_eq)
       | now rewrite list_lookup_insert_ne]).
  - now intros [= <-].
  - now intros [= <-].
Qed.

Lemma sys_exec_stop_kept acts : forall sys sys',
  sys_exec acts sys = Some sys' ->
  (shutdown (manager sys) = true -> shutdown (manager sys') = true) /\
  (forall j, instances sys !! j = Some STOPPED ->
             instances sys' !! j = Some STOPPED).
Proof.
  induction acts as [|a acts IH]; intros sys sys'; cbn [sys_exec].
  - intros [= <-]. auto.
  - destruct (sys_act a sys) as [sys1|] eqn:Ha; [|discriminate].
    intros Hrun. destruct (IH _ _ Hrun) as [Hsh Hst]. split.
    + intros H. apply Hsh. eapply sys_act_shutdown_kept; eauto.
    + intros j H. apply Hst. eapply sys_act_stopped_kept; eauto.
Qed.

(** X8.  No worker leaves its loop before shutdown has been requested;
    once requested, shutdown is never taken back; and a worker that has
    left its loop never moves again, whatever the other threads do. *)
Theorem stop_is_final (n t h d : Z) (before after : list action)
  (sys1 sys2 : system) (i : nat) :
  sys_exec before (spawn (DungeonManager_new n t h d)) = Some sys1 ->
  sys_exec after sys1 = Some sys2 ->
  (instances sys1 !! i = Some STOPPED -> shutdown (manager sys1) = true) /\
  (shutdown (manager sys1) = true -> shutdown (manager sys2) = true) /\
  (instances sys1 !! i = Some STOPPED ->
   instances sys2 !! i = Some STOPPED /\
   forall draw, sys_step i draw sys2 = None).
Proof.
  intros H1 H2.
  destruct (sys_exec_inv _ _ _ (spawn_inv n t h d) H1) as [_ _ _ _ Hstop].
  destruct (sys_exec_stop_kept _ _ _ H2) as [Hsh Hst].
  split; [apply Hstop|]. split; [exact Hsh|].
  intros Hi. split; [now apply Hst|].
  intros draw. unfold sys_step. now rewrite (Hst _ Hi).
Qed.

Lemma stop_is_final_witness :
  shutdown (set_shutdown true (DungeonManager_new 1 0 0 0)) = true /\
  [STOPPED] !! 0%nat = Some STOPPED.
Proof.
  pose proof (stop_is_final 1 0 0 0 [ActShutdown; ActWorker 0 1] [ActAdd 1 1 3]
                (mkSystem (set_shutdown true (DungeonManager_new 1 0 0 0))
                   [STOPPED])
                (mkSystem
                   (exec (addPlayersToQueue 1 1 3)
                      (set_shutdown true (DungeonManager_new 1 0 0 0)))
                   [STOPPED])
                0%nat eq_refl eq_refl) as (Hs & _ & Hk).
  split.
  - apply Hs. reflexivity.
  - apply Hk. reflexivity.
Defined.

(** ** The final summary *)

Lemma sum_list_alter (f : Z -> Z) l : forall i x,
  l !! i = Some x -> sum_list (alter f i l) = sum_list l - x + f x.
Proof.
  induction l as [|y l IH]; intros [|i] x Hx; try discriminate.
  - injection Hx as ->. cbn. lia.
  - cbn in Hx |- *. rewrite (IH _ _ Hx). lia.
Qed.

Lemma sum_list_lookup_le l : forall i x,
  Forall nonneg l -> l !! i = Some x -> 0 <= x <= sum_list l.
Proof.
  induction l as [|y l IH]; intros [|i] x Hl Hx; try discriminate;
    inversion Hl as [|? ? Hy Hl']; subst; unfold nonneg in Hy.
  - injection Hx as ->. cbn.
    assert (0 <= sum_list l).
    { clear -Hl'. induction Hl' as [|z l Hz _ IH']; cbn;
        unfold nonneg in *; lia. }
    lia.
  - cbn in Hx |- *. specialize (IH _ _ Hl' Hx). lia.
Qed.

Lemma Forall_nonneg_alter (f : Z -> Z) l i :
  Forall nonneg l -> (forall x, l !! i = Some x -> 0 <= f x) ->
  Forall nonneg (alter f i l).
Proof.
  intros Hl Hf. apply Forall_forall. intros y Hy.
  apply list_elem_of_lookup in Hy as [j Hj].
  destruct (decide (i = j)) as [->|Hne].
  - rewrite list_lookup_alter_eq in Hj.
    destruct (l !! j) as [x|] eqn:Hx; [|discriminate].
    injection Hj as <-. now apply Hf.
  - rewrite list_lookup_alter_ne in Hj by assumption.
    rewrite Forall_forall in Hl. apply Hl.
    apply list_elem_of_lookup. eauto.
Qed.

Lemma sys_act_served_ok a sys sys' :
  sys_inv sys -> served_ok (manager sys) ->
  total_parties_formed (manager sys) < INT_MAX ->
  sys_act a sys = Some sys' ->
  served_ok (manager sys') /\
  total_parties_formed (manager sys')
    <= total_parties_formed (manager sys) + 1.
Proof.
  intros [_ _ Hserved _ _] (Hnn & Hsum & Hf) Hlt.
  destruct a as [i draw|tanks healers dps|]; cbn [sys_act].
  - intros Hstep.
    destruct (sys_step_cases _ _ _ _ Hstep)
      as [(Hw & _ & ->)|[(_ & _ & _ & ->)|[(_ & ->)|(t & _ & ->)]]];
      cbn [manager];
      try (unfold served_ok; cbn; split; [now repeat split | lia]).
    rewrite formParty_exec. unfold served_ok. cbn.
    assert (Hi : (i < length (parties_served (manager sys)))%nat).
    { rewrite Hserved. eapply lookup_lt_Some; eauto. }
    apply lookup_lt_is_Some in Hi as [x Hx].
    pose proof (sum_list_lookup_le _ _ _ Hnn Hx) as Hxr.
    rewrite (sum_list_alter _ _ _ _ Hx).
    rewrite (wrap_small (x + 1)) by (int_bounds; lia).
    rewrite (wrap_small (total_parties_formed (manager sys) + 1))
      by (int_bounds; lia).
    repeat split; try lia.
    apply Forall_nonneg_alter; [exact Hnn|].
    intros y Hy. assert (y = x) by congruence. subst y.
    rewrite wrap_small by (int_bounds; lia). lia.
  - intros [= <-]. rewrite addPlayersToQueue_exec. unfold served_ok. cbn.
    split; [now repeat split | lia].
  - intros [= <-]. unfold served_ok. cbn. split; [now repeat split | lia].
Qed.

Lemma sys_exec_served_ok acts : forall sys sys',
  sys_inv sys -> served_ok (manager sys) ->
  total_parties_formed (manager sys) + Z.of_nat (length acts) <= INT_MAX ->
  sys_exec acts sys = Some sys' ->
  served_ok (manager sys') /\
  total_parties_formed (manager sys')
    <= total_parties_formed (manager sys) + Z.of_nat (length acts).
Proof.
  induction acts as [|a acts IH]; intros sys sys' Hinv Hok Hbound;
    cbn [sys_exec].
  - intros [= <-]. cbn. split; [exact Hok | lia].
  - destruct (sys_act a sys) as [sys1|] eqn:Ha; [|discriminate].
    cbn [length] in Hbound |- *.
    destruct (sys_act_served_ok _ _ _ Hinv Hok ltac:(lia) Ha) as [Hok1 Hle].
    intros Hrun.
    destruct (IH sys1 sys' ltac:(eapply sys_act_inv; eauto) Hok1
                ltac:(lia) Hrun) as [Hok' Hle'].
    split; [exact Hok' | lia].
Qed.

Lemma summary_totals_fst s idxs : forall a b,
  fst (fold_left (summary_row s) idxs (a, b)) =
  fold_left (fun acc i => wrap (acc + default 0 (parties_served s !! i)))
    idxs a.
Proof.
  induction idxs as [|i idxs IH]; intros a b; [reflexivity|].
  cbn [fold_left]. unfold summary_row at 2. apply IH.
Qed.

Lemma fold_rows_sum (l : list Z) : forall rows k a,
  (forall j, l !! (k + j)%nat = rows !! j) ->
  0 <= a -> Forall nonneg rows -> a + sum_list rows <= INT_MAX ->
  fold_left (fun acc i => wrap (acc + default 0 (l !! i)))
    (seq k (length rows)) a = a + sum_list rows.
Proof.
  induction rows as [|x rows IH]; intros k a Hl Ha Hnn Hmax.
  - cbn. lia.
  - inversion Hnn as [|? ? Hx Hnn']; subst. unfold nonneg in Hx.
    assert (0 <= sum_list rows).
    { clear -Hnn'. induction Hnn' as [|z r Hz _ IH']; cbn;
        unfold nonneg in *; lia. }
    cbn [length seq fold_left sum_list] in *.
    pose proof (Hl 0%nat) as H0. rewrite Nat.add_0_r in H0. cbn in H0.
    rewrite H0. change (default 0 (Some x)) with x.
    rewrite wrap_small by (int_bounds; lia).
    rewrite IH; try assumption; try lia.
    intros j. specialize (Hl (S j)).
    now replace (k + S j)%nat with (S k + j)%nat in Hl by lia.
Qed.

(** X9.  Over any run of the system of fewer than 2^31 moves, the
    served-counts of the instances add up to [total_parties_formed], and
    the TOTAL of parties that [displayFinalSummary] prints is that same
    number. *)
Theorem summary_total_is_formed_count (n t h d : Z) (acts : list action)
  (sys : system) :
  Z.of_nat (length acts) <= INT_MAX ->
  sys_exec acts (spawn (DungeonManager_new n t h d)) = Some sys ->
  sum_list (parties_served (manager sys))
    = total_parties_formed (manager sys) /\
  fst (summary_totals (manager sys)) = total_parties_formed (manager sys).
Proof.
  intros Hlen Hrun.
  pose proof (sys_exec_inv _ _ _ (spawn_inv n t h d) Hrun) as Hinv.
  assert (Hok0 : served_ok (manager (spawn (DungeonManager_new n t h d)))).
  { unfold served_ok. cbn. repeat split; try lia.
    - apply Forall_replicate. unfold nonneg. lia.
    - induction (Z.to_nat n) as [|k IH]; [reflexivity|]. exact IH. }
  destruct (sys_exec_served_ok _ _ _ (spawn_inv n t h d) Hok0 Hlen Hrun)
    as ((Hnn & Hsum & Hf) & Hle).
  cbn in Hle.
  split; [exact Hsum|].
  unfold summary_totals. rewrite summary_totals_fst.
  destruct Hinv as [Hinst _ Hserved _ _].
  rewrite <- Hinst, <- Hserved.
  rewrite (fold_rows_sum _ (parties_served (manager sys)) 0%nat 0);
    auto; lia.
Qed.

Lemma summary_total_is_formed_count_witness :
  fst (summary_totals
         (mkDungeonManager 0 0 0 2 [true; true] [1; 1] [0; 0] 2 0 false)) = 2.
Proof.
  apply (summary_total_is_formed_count 2 2 2 6
           [ActWorker 0 3; ActWorker 1 3]
           (mkSystem
              (mkDungeonManager 0 0 0 2 [true; true] [1; 1] [0; 0] 2 0 false)
              [BUSY None; BUSY None])).
  - vm_compute. discriminate.
  - reflexivity.
Defined.

(** ** Draining the pool *)

Lemma sys_act_drain_inv t h d a sys sys' :
  0 <= t <= INT_MAX -> 0 <= h <= INT_MAX -> 0 <= d <= INT_MAX ->
  is_add a = false ->
  drain_inv t h d sys -> sys_act a sys = Some sys' -> drain_inv t h d sys'.
Proof.
  intros Ht Hh Hd Ha [Hacc Hstop].
  destruct a as [i draw|tanks healers dps|]; cbn [sys_act];
    [|discriminate|].
  - intros Hstep.
    destruct (sys_step_cases _ _ _ _ Hstep)
      as [(Hw & Hcan & ->)|[(Hw & Hcan & _ & ->)|[(Hw & ->)|(dt & Hw & ->)]]].
    + split.
      * unfold accounts in *. rewrite formParty_exec. cbn.
        apply canFormParty_true in Hcan.
        rewrite !wrap_small by (int_bounds; lia). lia.
      * cbn [instances]. intros j Hj.
        destruct (decide (i = j)) as [->|Hne].
        -- apply lookup_lt_Some in Hw.
           rewrite list_lookup_insert_eq in Hj by assumption. discriminate.
        -- rewrite list_lookup_insert_ne in Hj by assumption.
           rewrite (Hstop j Hj) in Hcan. discriminate.
    + split; [exact Hacc|]. intros _ _. exact Hcan.
    + split; [exact Hacc|]. cbn [instances manager]. intros j Hj.
      destruct (decide (i = j)) as [->|Hne].
      * apply lookup_lt_Some in Hw.
        rewrite list_lookup_insert_eq in Hj by assumption. discriminate.
      * rewrite list_lookup_insert_ne in Hj by assumption. eauto.
    + split; [exact Hacc|]. cbn [instances manager]. intros j Hj.
      destruct (decide (i = j)) as [->|Hne].
      * apply lookup_lt_Some in Hw.
        rewrite list_lookup_insert_eq in Hj by assumption. discriminate.
      * rewrite list_lookup_insert_ne in Hj by assumption.
        exact (Hstop j Hj).
  - intros [= <-]. split; [exact Hacc|]. exact Hstop.
Qed.

Lemma sys_exec_drain_inv t h d acts : forall sys sys',
  0 <= t <= INT_MAX -> 0 <= h <= INT_MAX -> 0 <= d <= INT_MAX ->
  no_adds acts = true ->
  drain_inv t h d sys -> sys_exec acts sys = Some sys' -> drain_inv t h d sys'.
Proof.
  induction acts as [|a acts IH]; intros sys sys' Ht Hh Hd Hno Hinv;
    cbn [sys_exec].
  - now intros [= <-].
  - destruct (sys_act a sys) as [sys1|] eqn:Ha; [|discriminate].
    cbn in Hno. apply andb_true_iff in Hno as [Hna Hno].
    apply negb_true_iff in Hna.
    apply IH; try assumption. eapply sys_act_drain_inv; eauto.
Qed.

(** X10.  Without the producer, starting from [t] tanks, [h] healers and
    [d] dps: at every moment the queues hold what there was less one tank,
    one healer and three dps per party formed, and the parties formed are
    at most [min t (min h (d / 3))]; and once some instance has left its
    loop the parties formed are exactly that many and no party can be
    formed from what is left. *)
Theorem drain_forms_every_party (n t h d : Z) (acts : list action)
  (sys : system) :
  0 <= t <= INT_MAX -> 0 <= h <= INT_MAX -> 0 <= d <= INT_MAX ->
  no_adds acts = true ->
  sys_exec acts (spawn (DungeonManager_new n t h d)) = Some sys ->
  (tank_queue (manager sys) = t - total_parties_formed (manager sys) /\
   healer_queue (manager sys) = h - total_parties_formed (manager sys) /\
   dps_queue (manager sys) = d - 3 * total_parties_formed (manager sys) /\
   0 <= total_parties_formed (manager sys) <= Z.min t (Z.min h (d / 3))) /\
  (forall i, instances sys !! i = Some STOPPED ->
     total_parties_formed (manager sys) = Z.min t (Z.min h (d / 3)) /\
     canFormParty (manager sys) = false).
Proof.
  intros Ht Hh Hd Hno Hrun.
  assert (Hinv0 : drain_inv t h d (spawn (DungeonManager_new n t h d))).
  { split.
    - unfold accounts. cbn. lia.
    - cbn. intros i Hi. apply lookup_replicate in Hi as [Hi _].
      discriminate. }
  destruct (sys_exec_drain_inv _ _ _ _ _ _ Ht Hh Hd Hno Hinv0 Hrun)
    as [(Hf & Et & Eh & Ed & Hqt & Hqh & Hqd) Hstop].
  pose proof (Z.div_mod d 3 ltac:(lia)) as Hdm.
  pose proof (Z.mod_pos_bound d 3 ltac:(lia)) as Hmod.
  split; [repeat split; lia|].
  intros i Hi. specialize (Hstop i Hi). split; [|exact Hstop].
  destruct (canFormParty (manager sys)) eqn:Hcan; [discriminate|].
  unfold canFormParty in Hcan.
  rewrite !andb_false_iff, !Z.leb_gt in Hcan. lia.
Qed.

Lemma drain_forms_every_party_witness :
  total_parties_formed
    (mkDungeonManager 1 0 1 2 [false; false] [1; 1] [4; 4] 2 0 true)
    = Z.min 3 (Z.min 2 (7 / 3)).
Proof.
  pose proof (drain_forms_every_party 2 3 2 7
           [ActWorker 0 4; ActWorker 1 4; ActWorker 0 4; ActWorker 1 4;
            ActWorker 0 4; ActWorker 1 4; ActShutdown; ActWorker 1 4]
           (mkSystem
              (mkDungeonManager 1 0 1 2 [false; false] [1; 1] [4; 4] 2 0 true)
              [IDLE; STOPPED])
           ltac:(unfold INT_MAX; lia) ltac:(unfold INT_MAX; lia)
           ltac:(unfold INT_MAX; lia) eq_refl eq_refl) as [_ Hstopped].
  exact (proj1 (Hstopped 1%nat eq_refl)).
Defined.

Lemma worker_run_stopped fuel instance_id draws s :
  worker_run fuel instance_id draws STOPPED s = (STOPPED, s).
Proof. destruct fuel; reflexivity. Qed.

Lemma parties_left_after_party s :
  pool_ok s -> canFormParty s = true ->
  Z.min (tank_queue s - 1) (Z.min (healer_queue s - 1) ((dps_queue s - 3) / 3))
  = parties_left s - 1.
Proof.
  intros _ _. unfold parties_left.
  replace (dps_queue s - 3) with (dps_queue s + (-1) * 3) by lia.
  rewrite Z.div_add by lia. lia.
Qed.

Lemma parties_left_none s :
  pool_ok s -> canFormParty s = false -> parties_left s = 0.
Proof.
  intros (Ht & Hh & Hd) Hcan. unfold parties_left.
  unfold canFormParty in Hcan.
  rewrite !andb_false_iff, !Z.leb_gt in Hcan.
  pose proof (Z.div_mod (dps_queue s) 3 ltac:(lia)) as Hdm.
  pose proof (Z.mod_pos_bound (dps_queue s) 3 ltac:(lia)) as Hmod.
  int_bounds. lia.
Qed.

Lemma worker_run_drains instance_id draws fuel : forall w s,
  w <> STOPPED -> shutdown s = true -> pool_ok s ->
  (steps_needed w s <= fuel)%nat ->
  fst (worker_run fuel instance_id draws w s) = STOPPED /\
  tank_queue (snd (worker_run fuel instance_id draws w s))
    = tank_queue s - parties_left s /\
  healer_queue (snd (worker_run fuel instance_id draws w s))
    = healer_queue s - parties_left s /\
  dps_queue (snd (worker_run fuel instance_id draws w s))
    = dps_queue s - 3 * parties_left s.
Proof.
  induction fuel as [|fuel IH]; intros w s Hw Hsh Hok Hfuel.
  - destruct w as [|[t|]|]; cbn in Hfuel; try lia. congruence.
  - cbn [worker_run]. destruct w as [|[t|]|]; unfold worker_step.
    + unfold wait_pred. rewrite Hsh, orb_true_r.
      destruct (canFormParty s) eqn:Hcan.
      * rewrite dungeonInstance_enter_form by assumption.
        rewrite formParty_exec.
        pose proof Hcan as Hcan'. apply canFormParty_true in Hcan'.
        pose proof Hok as (Ht & Hh & Hd).
        match goal with
        | |- context [worker_run fuel _ _ (BUSY None) ?s1] =>
            assert (Hc : tank_queue s1 = tank_queue s - 1 /\
                         healer_queue s1 = healer_queue s - 1 /\
                         dps_queue s1 = dps_queue s - 3)
              by (cbn; rewrite !wrap_small by (int_bounds; lia); auto);
            assert (Hpl : parties_left s1 = parties_left s - 1)
              by (destruct Hc as (Ec1 & Ec2 & Ec3);
                  unfold parties_left at 1; rewrite Ec1, Ec2, Ec3;
                  now apply parties_left_after_party);
            destruct (IH (BUSY None) s1) as (Hst & Et & Eh & Ed)
        end.
        -- discriminate.
        -- exact Hsh.
        -- destruct Hc as (Ec1 & Ec2 & Ec3).
           unfold pool_ok. rewrite Ec1, Ec2, Ec3. int_bounds. lia.
        -- destruct Hc as (Ec1 & Ec2 & Ec3).
           unfold steps_needed in *. rewrite Ec1. lia.
        -- destruct Hc as (Ec1 & Ec2 & Ec3).
           rewrite Hst, Et, Eh, Ed, Hpl, Ec1, Ec2, Ec3.
           repeat split; lia.
      * rewrite dungeonInstance_enter_stop by assumption.
        rewrite worker_run_stopped. cbn.
        rewrite (parties_left_none s Hok Hcan). repeat split; lia.
    + rewrite dungeonInstance_complete_eq.
      match goal with
      | |- context [worker_run fuel _ _ IDLE ?s1] =>
          destruct (IH IDLE s1) as (Hst & Et & Eh & Ed)
      end.
      * discriminate.
      * exact Hsh.
      * exact Hok.
      * cbn in Hfuel |- *. lia.
      * rewrite Hst, Et, Eh, Ed. cbn. unfold parties_left. cbn.
        repeat split; lia.
    + cbn.
      destruct (IH (BUSY (Some (draws fuel))) s) as (Hst & Et & Eh & Ed).
      * discriminate.
      * exact Hsh.
      * exact Hok.
      * cbn in Hfuel |- *. lia.
      * repeat split; assumption.
    + congruence.
Qed.

(** X11.  A worker running on its own once shutdown is requested does not
    block and does not run on: within [3 * tank_queue + 1] steps it has
    formed every party the pool still gives, [min tank (min healer
    (dps / 3))] of them, and has left its loop with no party formable from
    what remains. *)
Theorem lone_worker_drains (instance_id : Z) (draws : nat -> Z)
  (s : DungeonManager) (fuel : nat) :
  wf s = true -> pool_nonneg s = true -> shutdown s = true ->
  (3 * Z.to_nat (tank_queue s) + 1 <= fuel)%nat ->
  fst (worker_run fuel instance_id draws IDLE s) = STOPPED /\
  tank_queue (snd (worker_run fuel instance_id draws IDLE s))
    = tank_queue s - parties_left s /\
  healer_queue (snd (worker_run fuel instance_id draws IDLE s))
    = healer_queue s - parties_left s /\
  dps_queue (snd (worker_run fuel instance_id draws IDLE s))
    = dps_queue s - 3 * parties_left s /\
  canFormParty (snd (worker_run fuel instance_id draws IDLE s)) = false.
Proof.
  intros Hwf Hnn Hsh Hfuel.
  pose proof (pool_ok_of_wf s Hwf Hnn) as Hok.
  destruct (worker_run_drains instance_id draws fuel IDLE s
              ltac:(discriminate) Hsh Hok Hfuel) as (Hst & Et & Eh & Ed).
  repeat (split; [assumption|]).
  unfold canFormParty. rewrite Et, Eh, Ed.
  destruct Hok as (Ht & Hh & Hd). unfold parties_left.
  pose proof (Z.div_mod (dps_queue s) 3 ltac:(lia)) as Hdm.
  pose proof (Z.mod_pos_bound (dps_queue s) 3 ltac:(lia)) as Hmod.
  rewrite !andb_false_iff, !Z.leb_gt. int_bounds. lia.
Qed.

Lemma lone_worker_drains_witness :
  fst (worker_run 7 0 (fun _ => 1) IDLE
         (set_shutdown true (DungeonManager_new 1 2 3 7))) = STOPPED /\
  tank_queue (snd (worker_run 7 0 (fun _ => 1) IDLE
                     (set_shutdown true (DungeonManager_new 1 2 3 7)))) = 0.
Proof.
  pose proof (lone_worker_drains 0 (fun _ => 1)
                (set_shutdown true (DungeonManager_new 1 2 3 7)) 7
                eq_refl eq_refl eq_refl ltac:(vm_compute; lia))
    as (Hst & Et & _).
  split; [exact Hst | exact Et].
Defined.

Lemma canFormParty_parties_left s :
  pool_ok s -> (canFormParty s = true <-> 1 <= parties_left s).
Proof.
  intros (Ht & Hh & Hd). rewrite canFormParty_true. unfold parties_left.
  pose proof (Z.div_mod (dps_queue s) 3 ltac:(lia)) as Hdm.
  pose proof (Z.mod_pos_bound (dps_queue s) 3 ltac:(lia)) as Hmod.
  int_bounds. lia.
Qed.

(** X12.  On a pool with no negative counter, [canFormParty] holds exactly
    when [min tank (min healer (dps / 3))] is at least 1, and each
    [formParty] made under that guard lowers this number of parties by
    exactly one: two workers never form a party out of a pool that gives
    only one. *)
Theorem formParty_takes_one_party (s : DungeonManager) :
  wf s = true -> pool_nonneg s = true ->
  (canFormParty s = true <-> 1 <= parties_left s) /\
  (canFormParty s = true ->
   parties_left (exec formParty s) = parties_left s - 1 /\
   (parties_left s = 1 -> canFormParty (exec formParty s) = false)).
Proof.
  intros Hwf Hnn. pose proof (pool_ok_of_wf s Hwf Hnn) as Hok.
  split; [now apply canFormParty_parties_left|].
  intros Hcan.
  assert (Hok' : pool_ok (exec formParty s)).
  { apply (apply_op_pool_ok Withdraw s); auto.
    unfold apply_op. now rewrite Hcan. }
  assert (Hpl : parties_left (exec formParty s) = parties_left s - 1).
  { pose proof Hcan as Hcan'. apply canFormParty_true in Hcan'.
    pose proof Hok as (Ht & Hh & Hd).
    unfold parties_left at 1. rewrite formParty_exec. cbn.
    rewrite !wrap_small by (int_bounds; lia).
    now apply parties_left_after_party. }
  split; [exact Hpl|].
  intros H1. destruct (canFormParty (exec formParty s)) eqn:E; [|reflexivity].
  apply (canFormParty_parties_left _ Hok') in E. lia.
Qed.

Lemma formParty_takes_one_party_witness :
  parties_left (exec formParty (DungeonManager_new 2 1 1 3))
    = parties_left (DungeonManager_new 2 1 1 3) - 1 /\
  canFormParty (exec formParty (DungeonManager_new 2 1 1 3)) = false.
Proof.
  pose proof (formParty_takes_one_party (DungeonManager_new 2 1 1 3)
                eq_refl eq_refl) as [_ Hform].
  destruct (Hform eq_refl) as [Hone Hlast].
  split; [exact Hone | exact (Hlast eq_refl)].
Defined.

(** X13.  The exhaustion test of the coordinator in [dungeonManager.cpp] is
    the negation of [canFormParty].  When it fires, a waiting worker has no
    move as long as shutdown is not set, and after the shutdown request
    that follows the next move of every waiting worker is to leave its loop
    and touch nothing. *)
Theorem exhausted_pool_stops_workers (s : DungeonManager)
  (instance_id draw : Z) :
  pool_exhausted s = negb (canFormParty s) /\
  (pool_exhausted s = true ->
   (shutdown s = false -> worker_step instance_id draw IDLE s = None) /\
   worker_step instance_id draw IDLE (exec request_shutdown s)
     = Some (STOPPED, exec request_shutdown s, [EvLock; EvUnlock])).
Proof.
  assert (Hneg : pool_exhausted s = negb (canFormParty s)).
  { unfold pool_exhausted, canFormParty.
    rewrite !negb_andb, !Z.leb_antisym, !negb_involutive. reflexivity. }
  split; [exact Hneg|].
  rewrite Hneg. intros Hcan. apply negb_true_iff in Hcan. split.
  - intros Hsh. unfold worker_step, wait_pred. now rewrite Hcan, Hsh.
  - unfold worker_step, wait_pred.
    change (canFormParty (exec request_shutdown s)) with (canFormParty s).
    rewrite Hcan. cbn [orb].
    change (shutdown (exec request_shutdown s)) with true. cbn [orb].
    rewrite dungeonInstance_enter_stop; auto.
Qed.

Lemma exhausted_pool_stops_workers_witness :
  worker_step 0 2 IDLE (DungeonManager_new 2 0 4 9) = None /\
  worker_step 0 2 IDLE (exec request_shutdown (DungeonManager_new 2 0 4 9))
    = Some (STOPPED, exec request_shutdown (DungeonManager_new 2 0 4 9),
            [EvLock; EvUnlock]).
Proof.
  destruct (proj2 (exhausted_pool_stops_workers (DungeonManager_new 2 0 4 9)
                     0 2) eq_refl) as [Hblocked Hstops].
  split; [exact (Hblocked eq_refl) | exact Hstops].
Defined.

(** ** What a producer run adds up to *)

(** X14.  Over a run of [playerProducer] whose draws keep to their ranges,
    started with room in the counters for three players a pass,
    [total_players_added] grows by exactly the number of players drawn, the
    three queues together grow by that same number, and
    [total_parties_formed] is not touched. *)
Theorem producer_counts_what_it_adds
  (interval_ms max_runtime_seconds : Z) (ticks : list tick)
  (s : DungeonManager) :
  Forall draws_in_range (live_ticks max_runtime_seconds ticks) ->
  room (Z.of_nat (length (live_ticks max_runtime_seconds ticks))) s ->
  total_players_added
    (exec (playerProducer interval_ms max_runtime_seconds ticks) s)
    = total_players_added s + drawn (live_ticks max_runtime_seconds ticks) /\
  tank_queue (exec (playerProducer interval_ms max_runtime_seconds ticks) s)
  + healer_queue
      (exec (playerProducer interval_ms max_runtime_seconds ticks) s)
  + dps_queue (exec (playerProducer interval_ms max_runtime_seconds ticks) s)
    = tank_queue s + healer_queue s + dps_queue s
      + drawn (live_ticks max_runtime_seconds ticks) /\
  total_parties_formed
    (exec (playerProducer interval_ms max_runtime_seconds ticks) s)
    = total_parties_formed s.
Proof. apply playerProducer_totals. Qed.

Lemma producer_counts_what_it_adds_witness :
  total_players_added
    (exec (playerProducer 3000 30 sample_ticks) (DungeonManager_new 2 0 0 0))
    = 0 + drawn (live_ticks 30 sample_ticks).
Proof.
  apply (producer_counts_what_it_adds 3000 30 sample_ticks
           (DungeonManager_new 2 0 0 0)).
  - repeat constructor; cbn; try lia;
      pose proof (Nat.mod_upper_bound i 3); lia.
  - unfold room, INT_MAX. cbn. lia.
Defined.
